(** * XE currency-rate scraper: a shallow embedding of [app.py]

    The development follows the source file top to bottom: Python text
    helpers, [float()], the two regular expressions of the pattern
    fallback, the rate extractor inside [scrape_xe_rate], the
    [RateLimiter], the single-date fetcher with its [except] clauses,
    [datetime] dates and [get_date_range], and the two routes.

    Texts are ASCII strings.  Rates are IEEE-754 binary64 values, as
    Python floats are, written with the Standard Library's [spec_float];
    clock readings and delays are exact rationals, where the program
    rounds each to binary64.  The body of a range request is a JSON
    object whose two dates may be any JSON value; the date of a
    single-date request is absent, [null] or a string. *)

From Stdlib Require Import ZArith QArith Qabs Lia Lqa Bool List Ascii String DecimalString.
From Stdlib Require Import SpecFloat.
From Equations Require Import Equations.
Import ListNotations.

Local Open Scope string_scope.
Local Open Scope Z_scope.

(* ================================================================== *)
(** * Python text operations                                           *)
(* ================================================================== *)

(** [Py_ISSPACE], the whitespace that [float()] skips around the
    numeral of an ASCII string: TAB..CR and space.  (The separators
    FS..US, which [str.isspace] also accepts, are not skipped:
    [float('\x1c1.5')] is a [ValueError].) *)
Definition Py_ISSPACE (c : ascii) : bool :=
  let n := N_of_ascii c in
  ((9 <=? n) && (n <=? 13) || (n =? 32))%N.

(** A decimal digit of ASCII, [0] to [9]. *)
Definition isdigit (c : ascii) : bool :=
  let n := N_of_ascii c in ((48 <=? n) && (n <=? 57))%N.

Definition digit_value (c : ascii) : N := (N_of_ascii c - 48)%N.

(** ASCII lower-casing, used for the case-insensitive words of [float()]. *)
Definition lower (c : ascii) : ascii :=
  let n := N_of_ascii c in
  if ((65 <=? n) && (n <=? 90))%N then ascii_of_N (n + 32) else c.

Fixpoint lstrip (s : string) : string :=
  match s with
  | String c s' => if Py_ISSPACE c then lstrip s' else s
  | EmptyString => EmptyString
  end.

(** [rstrip] drops the trailing run of whitespace: a character is kept
    when it is not a space or when something is kept after it. *)
Fixpoint rstrip (s : string) : string :=
  match s with
  | EmptyString => EmptyString
  | String c s' =>
      match rstrip s' with
      | EmptyString => if Py_ISSPACE c then EmptyString else String c EmptyString
      | r => String c r
      end
  end.

(** The text without the whitespace around it, as [float()] reads it. *)
Definition strip (s : string) : string := rstrip (lstrip s).

(** [s.replace(c, '')] for a one-character [c]. *)
Fixpoint remove_char (c : ascii) (s : string) : string :=
  match s with
  | EmptyString => EmptyString
  | String d s' => if Ascii.eqb c d then remove_char c s' else String d (remove_char c s')
  end.

(** [s.startswith(p)] *)
Fixpoint startswith (p s : string) : bool :=
  match p, s with
  | EmptyString, _ => true
  | String a p', String b s' => Ascii.eqb a b && startswith p' s'
  | String _ _, EmptyString => false
  end.

(** [needle in hay] *)
Fixpoint contains (needle hay : string) : bool :=
  startswith needle hay ||
  match hay with
  | EmptyString => false
  | String _ hay' => contains needle hay'
  end.

(** Removes [n] leading characters. *)
Fixpoint drop (n : nat) (s : string) : string :=
  match n, s with
  | O, _ => s
  | S n', String _ s' => drop n' s'
  | S _, EmptyString => EmptyString
  end.

(* ================================================================== *)
(** * Python floats and [float(str)]                                   *)
(* ================================================================== *)

(** A Python float is an IEEE-754 binary64 number. *)
Definition float := spec_float.
Definition prec : Z := 53.
Definition emax : Z := 1024.

Definition flt (x y : float) : bool := SFltb x y.
Definition fle (x y : float) : bool := SFleb x y.

(** [bool(x)] for a float: false exactly for the two zeros. *)
Definition float_truthy (x : float) : bool :=
  match x with
  | S754_zero _ => false
  | _ => true
  end.

(** The correctly rounded (nearest, ties to even) binary64 value of
    [(-1)^neg * m * 10^e], which is what CPython's [strtod] returns;
    an overflow gives an infinity, an underflow a subnormal or a zero. *)
Definition decimal_to_float (neg : bool) (m : N) (e : Z) : float :=
  match m with
  | N0 => S754_zero neg
  | Npos p =>
      if 0 <=? e
      then binary_round prec emax neg (p * Z.to_pos (10 ^ e)) 0
      else
        let '(q, e', l) :=
          SFdiv_core_binary prec emax (Zpos p) 0 (10 ^ (- e)) 0 in
        binary_round_aux prec emax neg q e' l
  end.

(** The literals [0.5] and [2.5] of the plausibility test; both are
    exactly representable. *)
Definition half : float := S754_finite false 4503599627370496 (-53).
Definition two_and_half : float := S754_finite false 5629499534213120 (-51).

(** Reads a maximal run of decimal digits: its value continuing [acc],
    how many digits were read, and the rest of the text. *)
Fixpoint read_digits (acc : N) (s : string) : N * nat * string :=
  match s with
  | String c s' =>
      if isdigit c
      then let '(v, n, r) := read_digits (acc * 10 + digit_value c)%N s' in (v, S n, r)
      else (acc, O, s)
  | EmptyString => (acc, O, s)
  end.

(** Underscores of a numeric literal (PEP 515): each one must stand
    between two digits; they are dropped.  [prev] is the character
    before [s] ([None] at the start), as in CPython's loop. *)
Fixpoint strip_underscores (prev : option ascii) (s : string) : option string :=
  match s with
  | EmptyString =>
      match prev with
      | Some "_"%char => None
      | _ => Some EmptyString
      end
  | String c s' =>
      if Ascii.eqb c "_" then
        match prev with
        | Some p => if isdigit p then strip_underscores (Some c) s' else None
        | None => None
        end
      else
        match prev with
        | Some "_"%char =>
            if isdigit c
            then option_map (String c) (strip_underscores (Some c) s')
            else None
        | _ => option_map (String c) (strip_underscores (Some c) s')
        end
  end.

Definition read_sign (s : string) : bool * string :=
  match s with
  | String "-" s' => (true, s')
  | String "+" s' => (false, s')
  | _ => (false, s)
  end.

(** Case-insensitive prefix test against a lower-case word. *)
Fixpoint startswith_nocase (word s : string) : bool :=
  match word, s with
  | EmptyString, _ => true
  | String a w', String b s' => Ascii.eqb a (lower b) && startswith_nocase w' s'
  | String _ _, EmptyString => false
  end.

(** [inf], [infinity] and [nan] in any case, after the sign. *)
Definition parse_inf_or_nan (neg : bool) (s : string) : option (float * string) :=
  if startswith_nocase "inf" s then
    let s1 := drop 3 s in
    if startswith_nocase "inity" s1
    then Some (S754_infinity neg, drop 5 s1)
    else Some (S754_infinity neg, s1)
  else if startswith_nocase "nan" s then Some (S754_nan, drop 3 s)
  else None.

(** The optional exponent part: [e] or [E], an optional sign and at
    least one digit.  When the part is malformed nothing is consumed. *)
Definition read_exponent (s : string) : Z * string :=
  match s with
  | String c s' =>
      if Ascii.eqb (lower c) "e" then
        let '(eneg, s2) := read_sign s' in
        let '(v, n, r) := read_digits 0%N s2 in
        match n with
        | O => (0, s)
        | S _ => ((if eneg then - Z.of_N v else Z.of_N v), r)
        end
      else (0, s)
  | EmptyString => (0, s)
  end.

(** The decimal grammar of [strtod]: digits, an optional point and more
    digits (one digit at least overall), an optional exponent. *)
Definition parse_decimal (neg : bool) (s : string) : option (float * string) :=
  let '(ip, ni, s1) := read_digits 0%N s in
  let '(m, nf, s2) :=
    match s1 with
    | String "." s1' => read_digits ip s1'
    | _ => (ip, O, s1)
    end in
  match (ni + nf)%nat with
  | O => None
  | S _ =>
      let '(ex, s3) := read_exponent s2 in
      Some (decimal_to_float neg m (ex - Z.of_nat nf), s3)
  end.

(** [float(s)] for a string: [None] stands for [ValueError]. *)
Definition float_of_string (s : string) : option float :=
  match strip_underscores None (strip s) with
  | None => None
  | Some t =>
      let '(neg, body) := read_sign t in
      let parsed :=
        match parse_inf_or_nan neg body with
        | Some r => Some r
        | None => parse_decimal neg body
        end in
      match parsed with
      | Some (x, EmptyString) => Some x
      | _ => None
      end
  end.

(* ================================================================== *)
(** * The regular expressions of the pattern fallback                  *)
(* ================================================================== *)

(** The two patterns use literals, [[^\d]*], [\d+] and one capture
    group.  A pattern is a sequence of items: a character class, a
    greedy quantifier, and whether the item lies inside group 1. *)
Inductive quant := One | Star | Plus.

Record item := Item { cls : ascii -> bool; qnt : quant; in_group : bool }.

Definition pattern := list item.

Definition lit (c : ascii) : item := Item (Ascii.eqb c) One false.

Fixpoint lits (s : string) : pattern :=
  match s with
  | EmptyString => []
  | String c s' => lit c :: lits s'
  end.

Definition capture (it : item) (c : ascii) (cap : string) : string :=
  if in_group it then cap ++ String c EmptyString else cap.

(** Backtracking match of a pattern at the start of [s], as [re] runs
    it: a greedy quantifier first takes all it can and gives characters
    back one at a time when the rest of the pattern fails.  The result
    is the text of group 1. *)
Fixpoint match_here (p : pattern) : string -> string -> option string :=
  match p with
  | [] => fun _ cap => Some cap
  | it :: p' =>
      let star :=
        fix star (s : string) (cap : string) {struct s} : option string :=
          match s with
          | String c s' =>
              if cls it c then
                match star s' (capture it c cap) with
                | Some g => Some g
                | None => match_here p' s cap
                end
              else match_here p' s cap
          | EmptyString => match_here p' s cap
          end in
      match qnt it with
      | One => fun s cap =>
          match s with
          | String c s' => if cls it c then match_here p' s' (capture it c cap) else None
          | EmptyString => None
          end
      | Star => star
      | Plus => fun s cap =>
          match s with
          | String c s' => if cls it c then star s' (capture it c cap) else None
          | EmptyString => None
          end
      end
  end.

(** [re.search(p, s)] followed by [.group(1)]: the match at the
    leftmost position where the pattern matches. *)
Fixpoint re_search (p : pattern) (s : string) : option string :=
  match match_here p s EmptyString with
  | Some g => Some g
  | None =>
      match s with
      | String _ s' => re_search p s'
      | EmptyString => None
      end
  end.

Definition not_digit (c : ascii) : bool := negb (isdigit c).

(** [[^\d]*(\d+\.\d+)] *)
Definition decimal_tail : pattern :=
  [ Item not_digit Star false;
    Item isdigit Plus true; Item (Ascii.eqb ".") One true; Item isdigit Plus true ].

(** [r'CAD[^\d]*(\d+\.\d+)'] *)
Definition pattern_CAD : pattern := (lits "CAD" ++ decimal_tail)%list.

(** [r'Canadian Dollar[^\d]*(\d+\.\d+)'] *)
Definition pattern_Canadian_Dollar : pattern :=
  (lits "Canadian Dollar" ++ decimal_tail)%list.

Definition patterns : list pattern := [pattern_CAD; pattern_Canadian_Dollar].

(* ================================================================== *)
(** * The rate extractor (lines 115-162 of [scrape_xe_rate])           *)
(* ================================================================== *)

(** What the code reads of the parsed page: for each [tr] in document
    order the texts [get_text(strip=True)] of its [td]/[th] cells, and
    the page's whole text [soup.get_text()]. *)
Record soup := Soup { find_all_tr : list (list string); get_text : string }.

(** [0.5 < rate < 2.5] *)
Definition plausible (rate : float) : bool := flt half rate && flt rate two_and_half.

(** Truth value of [cad_rate], which is [None] or a float. *)
Definition truthy (cad_rate : option float) : bool :=
  match cad_rate with
  | Some x => float_truthy x
  | None => false
  end.

(** ['CAD' in text or 'Canadian Dollar' in text] *)
Definition is_marker (text : string) : bool :=
  contains "CAD" text || contains "Canadian Dollar" text.

(** [for j in range(i+1, len(cell_text))]: [js] are the indices still
    to visit; the value is [cad_rate] when the loop ends or breaks. *)
Fixpoint for_j (cell_text : list string) (js : list nat) (cad_rate : option float)
  : option float :=
  match js with
  | [] => cad_rate
  | j :: js' =>
      match float_of_string (remove_char "," (nth j cell_text EmptyString)) with
      | Some rate =>
          if plausible rate then Some rate (* break *)
          else for_j cell_text js' cad_rate
      | None => for_j cell_text js' cad_rate (* except ValueError: continue *)
      end
  end.

(** [for i, text in enumerate(cell_text)], from index [i] on. *)
Fixpoint for_i (cell_text : list string) (i : nat) (rest : list string)
  (cad_rate : option float) : option float :=
  match rest with
  | [] => cad_rate
  | text :: rest' =>
      if is_marker text then
        let cad_rate' :=
          for_j cell_text (seq (i + 1) (List.length cell_text - (i + 1))) cad_rate in
        if truthy cad_rate' then cad_rate' (* break *)
        else for_i cell_text (S i) rest' cad_rate'
      else for_i cell_text (S i) rest' cad_rate
  end.

(** [for row in rows] *)
Fixpoint for_row (rows : list (list string)) (cad_rate : option float) : option float :=
  match rows with
  | [] => cad_rate
  | cell_text :: rows' =>
      let cad_rate' := for_i cell_text 0 cell_text cad_rate in
      if truthy cad_rate' then cad_rate' (* break *)
      else for_row rows' cad_rate'
  end.

(** Method 1, started with [cad_rate = None]. *)
Definition table_scan (page : soup) : option float :=
  for_row (find_all_tr page) None.

(** [for pattern in patterns] of method 2. *)
Fixpoint for_pattern (ps : list pattern) (text_content : string)
  (cad_rate : option float) : option float :=
  match ps with
  | [] => cad_rate
  | p :: ps' =>
      match re_search p text_content with
      | Some g =>
          match float_of_string g with
          | Some rate =>
              if plausible rate then Some rate (* break *)
              else for_pattern ps' text_content cad_rate
          | None => for_pattern ps' text_content cad_rate
          end
      | None => for_pattern ps' text_content cad_rate
      end
  end.

(** Method 2, reached only under [if not cad_rate]. *)
Definition pattern_scan (page : soup) (cad_rate : option float) : option float :=
  let text_content := get_text page in
  if contains "CAD" text_content
  then for_pattern patterns text_content cad_rate
  else cad_rate.

(** The value of [cad_rate] at line 164. *)
Definition extract_rate (page : soup) : option float :=
  let cad_rate := table_scan page in
  if negb (truthy cad_rate) then pattern_scan page cad_rate else cad_rate.

(* ================================================================== *)
(** * Exceptions, the outside world and the effect monad               *)
(* ================================================================== *)

(** The exception classes that the code raises, receives or names in an
    [except] clause.  [Timeout] stands for [requests.exceptions.Timeout]
    and its subclasses, [RequestException] for every other exception of
    [requests] ([HTTPError], [ConnectionError], ...), [Exception] for any
    other subclass of [Exception]. *)
Inductive exn_class :=
  | Timeout | RequestException | ValueError | TypeError | OverflowError | Exception.

(** An exception object: its class and [str(e)]. *)
Record exn := Exn { class_of : exn_class; str_of : string }.

Definition exn_class_eqb (c d : exn_class) : bool :=
  match c, d with
  | Timeout, Timeout | RequestException, RequestException
  | ValueError, ValueError | TypeError, TypeError | OverflowError, OverflowError
  | Exception, Exception => true
  | _, _ => false
  end.

(** [issubclass c d] in the hierarchy
    [Timeout <: RequestException <: Exception], [ValueError <: Exception],
    [TypeError <: Exception], [OverflowError <: Exception]. *)
Definition issubclass (c d : exn_class) : bool :=
  exn_class_eqb c d
  || exn_class_eqb d Exception
  || (exn_class_eqb c Timeout && exn_class_eqb d RequestException).

Definition isinstance (e : exn) (d : exn_class) : bool := issubclass (class_of e) d.

(** What [requests] hands back when no exception is raised. *)
Record Response := { status_code : Z; reason : string; url_of : string; text : string }.

(** What the program does to the outside, in order. *)
Inductive event :=
  | Slept (secs : Q)
  | Requested (url : string) (headers : list (string * string)) (timeout : Z).

(** The mutable attributes of a [RateLimiter] object. *)
Record RateLimiterState := {
  request_count : Z;
  last_request_time : Q;
  session_start : Q }.

(** The state the program runs in.  [oracle] holds every value the
    environment will choose (random bits, how long an operation takes),
    read at [cursor]; [network] is the HTTP transport and [html_parser]
    the markup parser, each either raising or returning; [limiter] is
    the state of the module-level [rate_limiter]; [log] is the trace,
    newest event first. *)
Record World := {
  clock : Q;
  oracle : nat -> N;
  cursor : nat;
  limiter : RateLimiterState;
  log : list event;
  network : string -> list (string * string) -> N -> exn + Response;
  html_parser : string -> exn + soup }.

Definition set_clock (t : Q) (w : World) : World :=
  {| clock := t; oracle := oracle w; cursor := cursor w; limiter := limiter w;
     log := log w; network := network w; html_parser := html_parser w |}.

Definition set_cursor (n : nat) (w : World) : World :=
  {| clock := clock w; oracle := oracle w; cursor := n; limiter := limiter w;
     log := log w; network := network w; html_parser := html_parser w |}.

Definition set_limiter (l : RateLimiterState) (w : World) : World :=
  {| clock := clock w; oracle := oracle w; cursor := cursor w; limiter := l;
     log := log w; network := network w; html_parser := html_parser w |}.

Definition add_event (ev : event) (w : World) : World :=
  {| clock := clock w; oracle := oracle w; cursor := cursor w; limiter := limiter w;
     log := ev :: log w; network := network w; html_parser := html_parser w |}.

(** A statement either completes with a value or raises. *)
Inductive outcome (A : Type) :=
  | Return (a : A)
  | Raise (e : exn).
Arguments Return {A} a.
Arguments Raise {A} e.

Definition M (A : Type) : Type := World -> outcome A * World.

Definition ret {A} (a : A) : M A := fun w => (Return a, w).

Definition raise {A} (e : exn) : M A := fun w => (Raise e, w).

Definition bind {A B} (m : M A) (k : A -> M B) : M B :=
  fun w =>
    match m w with
    | (Return a, w') => k a w'
    | (Raise e, w') => (Raise e, w')
    end.

Notation "x <- m ;; k" := (bind m (fun x => k))
  (at level 61, m at next level, right associativity).
Notation "m ;;; k" := (bind m (fun _ => k))
  (at level 61, right associativity).

(** [try: body except ...: handler], the handler choosing by class. *)
Definition try_except {A} (body : M A) (handler : exn -> M A) : M A :=
  fun w =>
    match body w with
    | (Return a, w') => (Return a, w')
    | (Raise e, w') => handler e w'
    end.

Definition get_world : M World := fun w => (Return w, w).
Definition modify (f : World -> World) : M unit := fun w => (Return tt, f w).

(** The next value chosen by the environment. *)
Definition draw : M N :=
  fun w => (Return (oracle w (cursor w)), set_cursor (S (cursor w)) w).

(** Arithmetic on times and delays: exact, with every result kept in
    lowest terms. *)
Definition qadd (x y : Q) : Q := Qred (x + y).
Definition qsub (x y : Q) : Q := Qred (x - y).
Definition qmul (x y : Q) : Q := Qred (x * y).

(** A duration of [n] nanoseconds, in seconds. *)
Definition nanoseconds (n : N) : Q := Z.of_N n # 1000000000.

(** Any operation may take time: the clock moves on by an amount the
    environment chooses, never backwards. *)
Definition elapse : M unit :=
  n <- draw ;; modify (fun w => set_clock (qadd (clock w) (nanoseconds n)) w).

(** [time.time()] *)
Definition time_time : M Q :=
  elapse ;;; w <- get_world ;; ret (clock w).

Definition Qltb (x y : Q) : bool := negb (Qle_bool y x).

(** [time.sleep(secs)]: suspends for at least [secs]; a negative
    argument is a [ValueError]. *)
Definition time_sleep (secs : Q) : M unit :=
  if Qltb secs 0 then raise (Exn ValueError "sleep length must be non-negative")
  else
    modify (fun w => add_event (Slept secs) (set_clock (qadd (clock w) secs) w)) ;;;
    elapse.

(** [random.random()]: a multiple of [2^-53] in [[0, 1)]. *)
Definition random_random : M Q :=
  n <- draw ;; ret (Z.of_N (n mod 2 ^ 53) # 2 ^ 53).

(** [random.uniform(a, b)] is [a + (b - a) * random()], computed here
    without the rounding of binary64: the result is in [[a, b)], where
    the program's can also be [b]. *)
Definition random_uniform (a b : Q) : M Q :=
  u <- random_random ;; ret (qadd a (qmul (qsub b a) u)).

(** [random.choice(seq)] for a non-empty sequence. *)
Definition random_choice {A} (items : list A) (default : A) : M A :=
  n <- draw ;; ret (nth (N.to_nat (n mod N.of_nat (List.length items))) items default).

(* ================================================================== *)
(** * [RateLimiter]                                                    *)
(* ================================================================== *)

(** The attributes set once by [__init__] from its arguments. *)
Record RateLimiter := {
  min_delay : Q;
  max_delay : Q;
  burst_limit : Z;
  burst_cooldown : Q }.

(** The remaining attributes as [__init__] leaves them, at time [now]. *)
Definition RateLimiter_init (now : Q) : RateLimiterState :=
  {| request_count := 0; last_request_time := 0; session_start := now |}.

(** The module-level instance (lines 55-60). *)
Definition rate_limiter : RateLimiter :=
  {| min_delay := 5 # 2; max_delay := 5; burst_limit := 5; burst_cooldown := 20 |}.

Definition set_request_count (n : Z) (l : RateLimiterState) : RateLimiterState :=
  {| request_count := n; last_request_time := last_request_time l;
     session_start := session_start l |}.

Definition set_last_request_time (t : Q) (l : RateLimiterState) : RateLimiterState :=
  {| request_count := request_count l; last_request_time := t;
     session_start := session_start l |}.

(** The delay chosen by [wait] once [request_count] has been
    incremented to [count]. *)
Definition choose_delay (self : RateLimiter) (count : Z) : M Q :=
  if burst_limit self =? 0 then raise (Exn Exception "integer modulo by zero")
  else if count mod burst_limit self =? 0 then
    jitter <- random_uniform 0 5 ;; ret (qadd (burst_cooldown self) jitter)
  else random_uniform (min_delay self) (max_delay self).

(** Lines 44-50 of [wait]: sleep for what is left of [delay] since the
    last request, then record the time. *)
Definition hold_back (delay : Q) : M unit :=
  now <- time_time ;;
  w <- get_world ;;
  let elapsed := qsub now (last_request_time (limiter w)) in
  (if Qltb elapsed delay
   then time_sleep (qsub delay elapsed)
   else ret tt) ;;;
  now' <- time_time ;;
  modify (fun w => set_limiter (set_last_request_time now' (limiter w)) w).

(** [RateLimiter.wait] *)
Definition wait (self : RateLimiter) : M Q :=
  modify (fun w =>
    set_limiter (set_request_count (request_count (limiter w) + 1) (limiter w)) w) ;;;
  w <- get_world ;;
  delay <- choose_delay self (request_count (limiter w)) ;;
  hold_back delay ;;;
  ret delay.

(* ================================================================== *)
(** * The single-date fetcher                                          *)
(* ================================================================== *)

Definition user_agents : list string :=
  [ "Mozilla/5.0 (Macintosh; Intel Mac OS X 10_15_7) AppleWebKit/537.36 (KHTML, like Gecko) Chrome/120.0.0.0 Safari/537.36";
    "Mozilla/5.0 (Windows NT 10.0; Win64; x64) AppleWebKit/537.36 (KHTML, like Gecko) Chrome/120.0.0.0 Safari/537.36";
    "Mozilla/5.0 (Macintosh; Intel Mac OS X 10_15_7) AppleWebKit/605.1.15 (KHTML, like Gecko) Version/17.2 Safari/605.1.15";
    "Mozilla/5.0 (Windows NT 10.0; Win64; x64; rv:121.0) Gecko/20100101 Firefox/121.0";
    "Mozilla/5.0 (Macintosh; Intel Mac OS X 10.15; rv:121.0) Gecko/20100101 Firefox/121.0" ].

(** [get_headers()] *)
Definition get_headers : M (list (string * string)) :=
  ua <- random_choice user_agents EmptyString ;;
  ret [ ("User-Agent", ua);
        ("Accept", "text/html,application/xhtml+xml,application/xml;q=0.9,image/webp,*/*;q=0.8");
        ("Accept-Language", "en-US,en;q=0.5");
        ("Accept-Encoding", "gzip, deflate, br");
        ("Connection", "keep-alive");
        ("Upgrade-Insecure-Requests", "1");
        ("Sec-Fetch-Dest", "document");
        ("Sec-Fetch-Mode", "navigate");
        ("Sec-Fetch-Site", "none");
        ("Sec-Fetch-User", "?1");
        ("Cache-Control", "max-age=0") ].

(** [session.get(url, headers=..., timeout=...)]: the request is sent,
    time passes, and the transport raises or returns a response. *)
Definition session_get (url : string) (headers : list (string * string)) (timeout : Z)
  : M Response :=
  modify (add_event (Requested url headers timeout)) ;;;
  n <- draw ;;
  elapse ;;;
  w <- get_world ;;
  match network w url headers n with
  | inl e => raise e
  | inr response => ret response
  end.

Definition str_of_Z (n : Z) : string :=
  match n with
  | Zneg p => "-" ++ NilZero.string_of_uint (Pos.to_uint p)
  | _ => NilZero.string_of_uint (N.to_uint (Z.to_N n))
  end.

(** [response.raise_for_status()]: an [HTTPError] for 4xx and 5xx. *)
Definition raise_for_status (response : Response) : M unit :=
  let code := status_code response in
  let http_error_msg (kind : string) :=
    str_of_Z code ++ " " ++ kind ++ " Error: " ++ reason response
      ++ " for url: " ++ url_of response in
  if (400 <=? code) && (code <? 500)
  then raise (Exn RequestException (http_error_msg "Client"))
  else if (500 <=? code) && (code <? 600)
  then raise (Exn RequestException (http_error_msg "Server"))
  else ret tt.

(** [BeautifulSoup(markup, 'lxml')] *)
Definition BeautifulSoup (markup : string) : M soup :=
  w <- get_world ;;
  match html_parser w markup with
  | inl e => raise e
  | inr page => ret page
  end.

Inductive status_t := success | not_found | error_status.

(** The dictionary returned by [scrape_xe_rate]; [error] is [None]
    when the key is absent. *)
Record FetchResult := {
  date : string;
  rate : option float;
  status : status_t;
  error : option string }.

(** Lines 109-113: the request with fresh headers and a 30 second
    timeout, [raise_for_status], and the parse of the body. *)
Definition fetch_page (url : string) : M soup :=
  headers <- get_headers ;;
  response <- session_get url headers 30 ;;
  raise_for_status response ;;;
  BeautifulSoup (text response).

(** Lines 164-176: the result for the value of [cad_rate]. *)
Definition result_of (date_str : string) (cad_rate : option float) : FetchResult :=
  if truthy cad_rate then
    {| date := date_str; rate := cad_rate; status := success; error := None |}
  else
    {| date := date_str; rate := None; status := not_found;
       error := Some "CAD rate not found in page" |}.

(** Lines 178-198: the three [except] clauses, tried in order. *)
Definition on_exception (date_str : string) (e : exn) : M FetchResult :=
  if isinstance e Timeout then
    ret {| date := date_str; rate := None; status := error_status;
           error := Some "Request timed out" |}
  else if isinstance e RequestException then
    ret {| date := date_str; rate := None; status := error_status;
           error := Some (str_of e) |}
  else if isinstance e Exception then
    ret {| date := date_str; rate := None; status := error_status;
           error := Some ("Parsing error: " ++ str_of e) |}
  else raise e.

Definition url_for (date_str : string) : string :=
  "https://www.xe.com/currencytables/?from=USD&date=" ++ date_str.

(** [scrape_xe_rate(date_str)] *)
Definition scrape_xe_rate (date_str : string) : M FetchResult :=
  wait rate_limiter ;;;
  let url := url_for date_str in
  try_except
    (page <- fetch_page url ;;
     ret (result_of date_str (extract_rate page)))
    (on_exception date_str).

(* ================================================================== *)
(** * [datetime]                                                       *)
(* ================================================================== *)

(** The route only builds datetimes at midnight.  Such a value is
    represented by its proleptic Gregorian ordinal ([toordinal()]:
    day 1 is 0001-01-01), on which [datetime] compares, adds and
    subtracts; the calendar fields are computed from it as
    [datetime.py] does. *)
Definition datetime := Z.

Definition MINYEAR : Z := 1.
Definition MAXYEAR : Z := 9999.
(** [date.max.toordinal()], the ordinal of 9999-12-31. *)
Definition MAXORDINAL : Z := 3652059.

Definition DAYS_IN_MONTH : list Z := [-1; 31; 28; 31; 30; 31; 30; 31; 31; 30; 31; 30; 31].
Definition DAYS_BEFORE_MONTH : list Z :=
  [-1; 0; 31; 59; 90; 120; 151; 181; 212; 243; 273; 304; 334].

Definition is_leap (year : Z) : bool :=
  (year mod 4 =? 0) && (negb (year mod 100 =? 0) || (year mod 400 =? 0)).

Definition days_before_year (year : Z) : Z :=
  let y := year - 1 in y * 365 + y / 4 - y / 100 + y / 400.

Definition days_in_month (year month : Z) : Z :=
  if (month =? 2) && is_leap year then 29
  else nth (Z.to_nat month) DAYS_IN_MONTH 0.

Definition days_before_month (year month : Z) : Z :=
  nth (Z.to_nat month) DAYS_BEFORE_MONTH 0
  + (if (2 <? month) && is_leap year then 1 else 0).

Definition ymd2ord (year month day : Z) : Z :=
  days_before_year year + days_before_month year month + day.

Definition DI400Y : Z := 146097.
Definition DI100Y : Z := 36524.
Definition DI4Y : Z := 1461.

(** [_ord2ymd]: the year, month and day of an ordinal. *)
Definition ord2ymd (n : Z) : Z * Z * Z :=
  let n := n - 1 in
  let n400 := n / DI400Y in
  let n := n mod DI400Y in
  let year := n400 * 400 + 1 in
  let n100 := n / DI100Y in
  let n := n mod DI100Y in
  let n4 := n / DI4Y in
  let n := n mod DI4Y in
  let n1 := n / 365 in
  let n := n mod 365 in
  let year := year + n100 * 100 + n4 * 4 + n1 in
  if (n1 =? 4) || (n100 =? 4) then (year - 1, 12, 31)
  else
    let leapyear := (n1 =? 3) && (negb (n4 =? 24) || (n100 =? 3)) in
    let month := Z.shiftr (n + 50) 5 in
    let preceding :=
      nth (Z.to_nat month) DAYS_BEFORE_MONTH 0
      + (if (2 <? month) && leapyear then 1 else 0) in
    if n <? preceding then
      let month := month - 1 in
      let preceding :=
        preceding
        - (nth (Z.to_nat month) DAYS_IN_MONTH 0
           + (if (month =? 2) && leapyear then 1 else 0)) in
      (year, month, n - preceding + 1)
    else (year, month, n - preceding + 1).

(** One alternative of a [strptime] directive: the number read and the
    rest of the text. *)
Definition alternative := string -> option (Z * string).

Definition in_range (lo hi : ascii) (c : ascii) : bool :=
  ((N_of_ascii lo <=? N_of_ascii c) && (N_of_ascii c <=? N_of_ascii hi))%N.

Definition digit_Z (c : ascii) : Z := Z.of_N (digit_value c).

(** Two characters, the first in [a..b] and the second in [c..d]; a
    leading space counts as zero. *)
Definition two_chars (a b c d : ascii) : alternative := fun s =>
  match s with
  | String x (String y r) =>
      if in_range a b x && in_range c d y
      then Some ((if isdigit x then digit_Z x else 0) * 10 + digit_Z y, r)
      else None
  | _ => None
  end.

Definition one_char (a b : ascii) : alternative := fun s =>
  match s with
  | String x r => if in_range a b x then Some (digit_Z x, r) else None
  | _ => None
  end.

(** [%m] is [(1[0-2]|0[1-9]|[1-9])]. *)
Definition directive_m : list alternative :=
  [two_chars "1" "1" "0" "2"; two_chars "0" "0" "1" "9"; one_char "1" "9"].

(** [%d] is [(3[0-1]|[1-2]\d|0[1-9]|[1-9]| [1-9])]. *)
Definition directive_d : list alternative :=
  [two_chars "3" "3" "0" "1"; two_chars "1" "2" "0" "9"; two_chars "0" "0" "1" "9";
   one_char "1" "9"; two_chars " " " " "1" "9"].

(** Ordered choice with backtracking: the first alternative after which
    the rest of the format, [k], matches. *)
Fixpoint first_match {A} (alts : list alternative) (k : Z -> string -> option A)
  (s : string) : option A :=
  match alts with
  | [] => None
  | a :: alts' =>
      match a s with
      | Some (v, r) =>
          match k v r with
          | Some x => Some x
          | None => first_match alts' k s
          end
      | None => first_match alts' k s
      end
  end.

(** [%Y] is [(\d\d\d\d)]. *)
Definition directive_Y {A} (k : Z -> string -> option A) (s : string) : option A :=
  match s with
  | String a (String b (String c (String d r))) =>
      if isdigit a && isdigit b && isdigit c && isdigit d
      then k (((digit_Z a * 10 + digit_Z b) * 10 + digit_Z c) * 10 + digit_Z d) r
      else None
  | _ => None
  end.

Definition expect (c : ascii) {A} (k : string -> option A) (s : string) : option A :=
  match s with
  | String x r => if Ascii.eqb x c then k r else None
  | EmptyString => None
  end.

(** The match of the format ['%Y-%m-%d'] at the start of the text: the
    three fields and what is left unconverted. *)
Definition match_Ymd (s : string) : option (Z * Z * Z * string) :=
  directive_Y (fun y =>
    expect "-" (first_match directive_m (fun m =>
      expect "-" (first_match directive_d (fun d r => Some (y, m, d, r)))))) s.

(** [datetime.strptime(s, '%Y-%m-%d')]: a [ValueError] when the text
    does not match the format, when text remains, or when the fields
    are not a date. *)
Definition strptime (s : string) : outcome datetime :=
  match match_Ymd s with
  | None => Raise (Exn ValueError "time data does not match format")
  | Some (y, m, d, EmptyString) =>
      if y <? MINYEAR then Raise (Exn ValueError "year is out of range")
      else if days_in_month y m <? d then Raise (Exn ValueError "day is out of range for month")
      else Return (ymd2ord y m d)
  | Some (_, _, _, String _ _) => Raise (Exn ValueError "unconverted data remains")
  end.

Fixpoint zeros (n : nat) : string :=
  match n with
  | O => EmptyString
  | S n' => String "0" (zeros n')
  end.

(** [s.zfill(width)] for an unsigned numeral. *)
Definition zfill (width : nat) (s : string) : string :=
  zeros (width - String.length s) ++ s.

(** [d.strftime('%Y-%m-%d')] as CPython 3.11 gives it on Linux, where
    the C library writes [%Y] without padding: a year below 1000 has
    fewer than four digits (['999-12-31']); the month and the day
    always have two. *)
Definition strftime (d : datetime) : string :=
  let '(y, m, dd) := ord2ymd d in
  str_of_Z y ++ "-" ++ zfill 2 (str_of_Z m) ++ "-" ++ zfill 2 (str_of_Z dd).

(** [d + timedelta(days=n)]: an [OverflowError] outside
    0001-01-01..9999-12-31. *)
Definition add_days (d : datetime) (n : Z) : outcome datetime :=
  if (0 <? d + n) && (d + n <=? MAXORDINAL) then Return (d + n)
  else Raise (Exn OverflowError "date value out of range").

(** [(a - b).days] *)
Definition days_between (a b : datetime) : Z := a - b.

(* ================================================================== *)
(** * [get_date_range] and the [/api/scrape] route                     *)
(* ================================================================== *)

(** A value together with the equation that it is the value of [a]. *)
Definition inspect {A} (a : A) : {b : A | a = b} := exist _ a eq_refl.

(** The [while current <= end_date] loop of [get_date_range], from the
    state ([current], [dates]) on. *)
Equations? while_current (current end_date : datetime) (dates : list string)
  : outcome (list string) by wf (Z.to_nat (end_date + 1 - current)) lt :=
  while_current current end_date dates with Z_le_gt_dec current end_date := {
    | right _ => Return dates
    | left _ with inspect (add_days current 1) := {
        | exist _ (Return current') _ =>
            while_current current' end_date (dates ++ [strftime current])%list
        | exist _ (Raise e) _ => Raise e } }.
Proof.
  unfold add_days in *.
  destruct ((0 <? current + 1) && (current + 1 <=? MAXORDINAL)); [|discriminate].
  injection e as <-. lia.
Qed.

(** [get_date_range(start_date, end_date)] *)
Definition get_date_range (start_date end_date : datetime) : outcome (list string) :=
  while_current start_date end_date [].

(** A JSON value, as [request.get_json()] decodes it: [None], a
    [bool], an [int], a [float], a [str], a [list] or a [dict]. *)
#[warnings="-register-all"]
Inductive json :=
  | JNull
  | JBool (b : bool)
  | JInt (n : Z)
  | JFloat (x : float)
  | JString (s : string)
  | JArray (items : list json)
  | JObject (members : list (string * json)).

(** The JSON body of a range request, an object: what [data.get]
    returns for each of the two keys, [JNull] ([None]) when the key is
    absent or holds [null]. *)
Record RangeRequest := { start_date : json; end_date : json }.

(** [not v] *)
Definition json_falsy (v : json) : bool :=
  match v with
  | JNull => true
  | JBool b => negb b
  | JInt n => n =? 0
  | JFloat x => negb (float_truthy x)
  | JString EmptyString => true
  | JString (String _ _) => false
  | JArray [] => true
  | JArray (_ :: _) => false
  | JObject [] => true
  | JObject (_ :: _) => false
  end.

(** [type(v).__name__] *)
Definition type_name (v : json) : string :=
  match v with
  | JNull => "NoneType"
  | JBool _ => "bool"
  | JInt _ => "int"
  | JFloat _ => "float"
  | JString _ => "str"
  | JArray _ => "list"
  | JObject _ => "dict"
  end.

(** [datetime.strptime(v, '%Y-%m-%d')] for any value: a [TypeError]
    unless [v] is a string. *)
Definition strptime_json (v : json) : outcome datetime :=
  match v with
  | JString s => strptime s
  | _ => Raise (Exn TypeError ("strptime() argument 1 must be str, not " ++ type_name v))
  end.

(** What the route answers: [jsonify({'error': ...}), 400], or the
    200 body with [results], [total] and [successful]. *)
Inductive reply :=
  | BadRequest (error : string)
  | Ok (results : list FetchResult) (total : nat) (successful : nat).

Definition lift {A} (o : outcome A) : M A := fun w => (o, w).

(** [for i, date_str in enumerate(dates)] with [results.append]. *)
Fixpoint for_date (dates : list string) (results : list FetchResult)
  : M (list FetchResult) :=
  match dates with
  | [] => ret results
  | date_str :: dates' =>
      result <- scrape_xe_rate date_str ;;
      for_date dates' (results ++ [result])%list
  end.

Definition is_success (r : FetchResult) : bool :=
  match status r with
  | success => true
  | _ => false
  end.

(** [scrape_rates()], given the request's JSON. *)
Definition scrape_rates (data : RangeRequest) : M reply :=
  let start_date_str := start_date data in
  let end_date_str := end_date data in
  if json_falsy start_date_str || json_falsy end_date_str then
    ret (BadRequest "Start and end dates are required")
  else
    parsed <-
      try_except
        (start_date <- lift (strptime_json start_date_str) ;;
         end_date <- lift (strptime_json end_date_str) ;;
         ret (Some (start_date, end_date)))
        (fun e => if isinstance e ValueError then ret None else raise e) ;;
    match parsed with
    | None => ret (BadRequest "Invalid date format. Use YYYY-MM-DD")
    | Some (start_date, end_date) =>
        if end_date <? start_date then
          ret (BadRequest "Start date must be before end date")
        else
          let days_diff := days_between end_date start_date in
          if 90 <? days_diff then
            ret (BadRequest
                   "Date range cannot exceed 90 days to prevent rate limiting issues")
          else
            dates <- lift (get_date_range start_date end_date) ;;
            results <- for_date dates [] ;;
            ret (Ok results (List.length results)
                   (List.length (filter is_success results)))
    end.

(* ================================================================== *)
(** * The extractor as the specification words it                      *)
(* ================================================================== *)

(** A cell is accepted when, commas stripped, it parses as a decimal
    that lies in the plausible range. *)
Definition accepted (cell : string) : option float :=
  match float_of_string (remove_char "," cell) with
  | Some rate => if plausible rate then Some rate else None
  | None => None
  end.

(** The first accepted cell, left to right. *)
Fixpoint first_accepted (cells : list string) : option float :=
  match cells with
  | [] => None
  | c :: cells' =>
      match accepted c with
      | Some rate => Some rate
      | None => first_accepted cells'
      end
  end.

(** The cells that follow the first cell naming the currency. *)
Fixpoint after_marker (cells : list string) : list string :=
  match cells with
  | [] => []
  | c :: cells' => if is_marker c then cells' else after_marker cells'
  end.

(** The value a row yields: the first accepted cell after its marker. *)
Definition row_value (cells : list string) : option float :=
  first_accepted (after_marker cells).

(** Rows in document order; the first row that yields a value wins. *)
Fixpoint structured_scan (rows : list (list string)) : option float :=
  match rows with
  | [] => None
  | row :: rows' =>
      match row_value row with
      | Some rate => Some rate
      | None => structured_scan rows'
      end
  end.

(** The decimal of a pattern's first match, when it is plausible. *)
Definition pattern_value (p : pattern) (raw : string) : option float :=
  match re_search p raw with
  | Some g =>
      match float_of_string g with
      | Some rate => if plausible rate then Some rate else None
      | None => None
      end
  | None => None
  end.

(** The text up to the first character that fails [p], and the rest. *)
Fixpoint span (p : ascii -> bool) (s : string) : string * string :=
  match s with
  | String c s' =>
      if p c then let '(a, b) := span p s' in (String c a, b) else (EmptyString, s)
  | EmptyString => (EmptyString, EmptyString)
  end.

Fixpoint dropwhile (p : ascii -> bool) (s : string) : string :=
  match s with
  | String c s' => if p c then dropwhile p s' else s
  | EmptyString => EmptyString
  end.

Definition leading_digit (s : string) : bool :=
  match s with
  | String c _ => isdigit c
  | EmptyString => false
  end.

(** The first decimal number after a marker, "independent of
    intervening non-digit characters": skip the non-digits, then read
    digits, a point, digits.  The first number met must have that
    shape. *)
Definition decimal_after (s : string) : option string :=
  let '(d1, r1) := span isdigit (dropwhile not_digit s) in
  match d1, r1 with
  | String _ _, String "." r2 =>
      let '(d2, _) := span isdigit r2 in
      match d2 with
      | String _ _ => Some (d1 ++ "." ++ d2)
      | EmptyString => None
      end
  | _, _ => None
  end.

(** The first occurrence of the marker that a decimal follows. *)
Fixpoint first_occurrence (marker raw : string) : option string :=
  match
    (if startswith marker raw
     then decimal_after (drop (String.length marker) raw)
     else None)
  with
  | Some g => Some g
  | None =>
      match raw with
      | String _ raw' => first_occurrence marker raw'
      | EmptyString => None
      end
  end.

(** The binary64 values of the decimals [1.3612], [1.29] and [150.0]. *)
Definition f_1_3612 : float := S754_finite false 6130299812776719 (-52).
Definition f_150 : float := S754_finite false 5277655813324800 (-45).

(* ================================================================== *)
(** * Reading the world                                                *)
(* ================================================================== *)

(** The value the next [random.random()] returns in [w]. *)
Definition unit_draw (w : World) : Q := Z.of_N (oracle w (cursor w) mod 2 ^ 53) # 2 ^ 53.

(** The world once the environment's next choice has been consumed. *)
Definition advance (w : World) : World := set_cursor (S (cursor w)) w.

(** The world once an operation has taken its time. *)
Definition tick (w : World) : World :=
  set_clock (qadd (clock w) (nanoseconds (oracle w (cursor w)))) (advance w).

(** The URLs requested so far, oldest first. *)
Fixpoint requested (trace : list event) : list string :=
  match trace with
  | [] => []
  | Requested url _ _ :: older => (requested older ++ [url])%list
  | Slept _ :: older => requested older
  end.

(** What an operation leaves alone besides the clock and the cursor. *)
Definition same_outside (w w' : World) : Prop :=
  oracle w' = oracle w /\ network w' = network w /\ html_parser w' = html_parser w
  /\ requested (log w') = requested (log w).

(** The message of an error result, by the class of the exception. *)
Definition error_message (e : exn) : string :=
  match class_of e with
  | Timeout => "Request timed out"
  | RequestException => str_of e
  | _ => "Parsing error: " ++ str_of e
  end.

(** The error result of lines 178-198 for the exception [e]. *)
Definition error_result (date_str : string) (e : exn) : FetchResult :=
  {| date := date_str; rate := None; status := error_status;
     error := Some (error_message e) |}.

(** A world to run examples in: the clock at [t], the environment's
    choices [choices], nothing requested yet, a fresh limiter. *)
Definition world_at (t : Q) (choices : nat -> N)
  (net : string -> list (string * string) -> N -> exn + Response)
  (parser : string -> exn + soup) : World :=
  {| clock := t; oracle := choices; cursor := 0; limiter := RateLimiter_init t;
     log := []; network := net; html_parser := parser |}.

Definition ok_response (url body : string) : Response :=
  {| status_code := 200; reason := "OK"; url_of := url; text := body |}.

(** A server that answers every request with the same body, and a
    parser that finds the same page in every body. *)
Definition serving (page : soup) : World :=
  world_at 1700000000 (fun n => N.of_nat (7 * n + 3))
    (fun url _ _ => inr (ok_response url "<html>"))
    (fun _ => inr page).

(** A transport that raises [e] on every request. *)
Definition failing (e : exn) : World :=
  world_at 1700000000 (fun n => N.of_nat (7 * n + 3))
    (fun _ _ _ => inl e)
    (fun _ => inr {| find_all_tr := []; get_text := EmptyString |}).

(** A server that answers every request with [response]. *)
Definition answering (response : Response) (page : soup) : World :=
  world_at 1700000000 (fun n => N.of_nat (7 * n + 3))
    (fun _ _ _ => inr response)
    (fun _ => inr page).

Definition page_with_rate : soup :=
  {| find_all_tr := [["Currency"; "Rate"]; ["CAD"; "Canadian Dollar"; "1.3612"]];
     get_text := "Currency Rate CAD Canadian Dollar 1.3612" |}.

Definition page_without_rate : soup :=
  {| find_all_tr := [["Currency"; "Rate"]; ["EUR"; "Euro"; "0.92"]];
     get_text := "Currency Rate EUR Euro 0.92" |}.

(** The ordinals [first], [first + 1], ... ([count] of them). *)
Fixpoint days_from (first : datetime) (count : nat) : list datetime :=
  match count with
  | O => []
  | S n => first :: days_from (first + 1) n
  end.



(** A date field that is absent, [null] or a string. *)
Definition textual (v : json) : bool :=
  match v with
  | JNull | JString _ => true
  | _ => false
  end.

(** A parser that raises [e] on every body, behind a server that
    answers every request. *)
Definition unparseable (e : exn) : World :=
  world_at 1700000000 (fun n => N.of_nat (7 * n + 3))
    (fun url _ _ => inr (ok_response url "<html>"))
    (fun _ => inl e).

(* ================================================================== *)
(** * The [/api/scrape-single] route                                   *)
(* ================================================================== *)

(** The JSON body of a single-date request: [None] when the key [date]
    is absent or [null], and otherwise the string it holds. *)
Record SingleRequest := { date_field : option string }.

(** [not s] for a value that is [None] or a string. *)
Definition falsy (s : option string) : bool :=
  match s with
  | None | Some EmptyString => true
  | Some (String _ _) => false
  end.

Definition value_of (s : option string) : string :=
  match s with
  | Some v => v
  | None => EmptyString
  end.

(** What the route answers: [jsonify({'error': ...}), 400], or the
    fetcher's result as it is. *)
Inductive single_reply :=
  | SingleBadRequest (error : string)
  | SingleResult (result : FetchResult).

(** [scrape_single_rate()], given the request's JSON. *)
Definition scrape_single_rate (data : SingleRequest) : M single_reply :=
  let date_str := date_field data in
  if falsy date_str then ret (SingleBadRequest "Date is required")
  else
    parsed <-
      try_except
        (lift (strptime (value_of date_str)) ;;; ret true)
        (fun e => if isinstance e ValueError then ret false else raise e) ;;
    if parsed : bool then
      result <- scrape_xe_rate (value_of date_str) ;;
      ret (SingleResult result)
    else ret (SingleBadRequest "Invalid date format. Use YYYY-MM-DD").

(** The seconds slept so far, oldest first. *)
Fixpoint slept (trace : list event) : list Q :=
  match trace with
  | [] => []
  | Slept secs :: older => (slept older ++ [secs])%list
  | Requested _ _ _ :: older => slept older
  end.

(** The invariant of a fetch result (lines 164-198): a rate is present
    exactly for a success, a present rate is plausible, and an error
    text is present exactly for the other statuses. *)
Definition well_formed (r : FetchResult) : Prop :=
  match status r with
  | success => (exists v, rate r = Some v /\ plausible v = true) /\ error r = None
  | _ => rate r = None /\ error r <> None
  end.

Definition has_rate (r : FetchResult) : bool :=
  match rate r with
  | Some _ => true
  | None => false
  end.

(** The header set apart from the user agent (lines 79-88). *)
Definition fixed_headers : list (string * string) :=
  [ ("Accept", "text/html,application/xhtml+xml,application/xml;q=0.9,image/webp,*/*;q=0.8");
    ("Accept-Language", "en-US,en;q=0.5");
    ("Accept-Encoding", "gzip, deflate, br");
    ("Connection", "keep-alive");
    ("Upgrade-Insecure-Requests", "1");
    ("Sec-Fetch-Dest", "document");
    ("Sec-Fetch-Mode", "navigate");
    ("Sec-Fetch-Site", "none");
    ("Sec-Fetch-User", "?1");
    ("Cache-Control", "max-age=0") ].

(** All the characters of a text satisfy [p]. *)
Fixpoint all_chars (p : ascii -> bool) (s : string) : bool :=
  match s with
  | EmptyString => true
  | String c s' => p c && all_chars p s'
  end.

(** [f] holds on each of the [p] integers from [base] on. *)
Fixpoint all_from (p : positive) (f : Z -> bool) (base : Z) : bool :=
  match p with
  | xH => f base
  | xO p' => all_from p' f base && all_from p' f (base + Zpos p')
  | xI p' => f base && all_from p' f (base + 1) && all_from p' f (base + 1 + Zpos p')
  end.

(** The fields [ord2ymd] computes for the ordinal [n] are a date of the
    years 1 to 400 whose ordinal is [n]. *)
Definition first_cycle_day (n : Z) : bool :=
  let '(y, m, d) := ord2ymd n in
  (1 <=? y) && (y <=? 400) && (1 <=? m) && (m <=? 12) && (1 <=? d)
  && (d <=? days_in_month y m) && (ymd2ord y m d =? n).

(** The year [y] is written as four digits that read as [y]. *)
Definition four_digit_year (y : Z) : bool :=
  match str_of_Z y with
  | String a (String b (String c (String d EmptyString))) =>
      isdigit a && isdigit b && isdigit c && isdigit d
      && (((digit_Z a * 10 + digit_Z b) * 10 + digit_Z c) * 10 + digit_Z d =? y)
  | _ => false
  end.

(** The year [y] is written as one, two or three characters. *)
Definition short_year (y : Z) : bool :=
  match str_of_Z y with
  | String _ EmptyString
  | String _ (String _ EmptyString)
  | String _ (String _ (String _ EmptyString)) => true
  | _ => false
  end.

(** The ordinal of 1000-01-01, the first day whose year has four
    digits. *)
Definition FIRST_FOUR_DIGIT_DAY : Z := 364878.

(** A character of a decimal numeral: a digit or the point. *)
Definition plain (c : ascii) : bool := isdigit c || Ascii.eqb c ".".

(** The number that a run of digits denotes, continuing [acc]. *)
Fixpoint digits_value (acc : N) (d : string) : N :=
  match d with
  | String c d' => digits_value (acc * 10 + digit_value c)%N d'
  | EmptyString => acc
  end.

(* ================================================================== *)
(** * Floats: order facts used by the plausibility test                *)
(* ================================================================== *)

Lemma SFcompare_Lt_Gt (x y : float) :
  SFcompare x y = Some Lt -> SFcompare y x = Some Gt.
Proof.
  destruct x as [sx|sx| |sx mx ex], y as [sy|sy| |sy my ey]; simpl;
    try discriminate; try (destruct sx; discriminate);
    try (destruct sy; discriminate);
    try (destruct sx, sy; (discriminate || reflexivity)).
  destruct sx, sy; try discriminate; try reflexivity;
    rewrite (Z.compare_antisym ex ey);
    destruct (ex ?= ey) eqn:E; simpl; try discriminate; try reflexivity;
    rewrite !Pos.compare_cont_spec, (Pos.compare_antisym mx my); simpl;
    destruct (mx ?= my)%positive; simpl; (discriminate || reflexivity).
Qed.

Lemma flt_not_fle (x y : float) : flt x y = true -> fle y x = false.
Proof.
  unfold flt, fle, SFltb, SFleb. intros H.
  destruct (SFcompare x y) as [[]|] eqn:E; try discriminate.
  now rewrite (SFcompare_Lt_Gt _ _ E).
Qed.

Lemma plausible_bounds (v : float) :
  plausible v = true -> flt half v = true /\ flt v two_and_half = true.
Proof. unfold plausible. intros H. now apply andb_true_iff in H. Qed.

(** A plausible value is a positive finite number: never a zero, an
    infinity or a NaN; so it is true in an [if]. *)
Lemma plausible_truthy (v : float) : plausible v = true -> float_truthy v = true.
Proof.
  destruct v as [s|s| |s m e]; try reflexivity.
  unfold plausible, flt, SFltb; simpl. discriminate.
Qed.

Lemma plausible_finite (v : float) :
  plausible v = true -> exists m e, v = S754_finite false m e.
Proof.
  destruct v as [s|s| |s m e]; unfold plausible, flt, SFltb.
  - cbn. discriminate.
  - cbn. destruct s; cbn; discriminate.
  - cbn. discriminate.
  - destruct s.
    + cbn. discriminate.
    + intros _. exists m, e. reflexivity.
Qed.

(* ================================================================== *)
(** * The rate extractor                                               *)
(* ================================================================== *)

Lemma accepted_plausible cell v : accepted cell = Some v -> plausible v = true.
Proof.
  unfold accepted. destruct (float_of_string _) as [r|]; [|discriminate].
  destruct (plausible r) eqn:P; [|discriminate]. now intros [= <-].
Qed.

Lemma first_accepted_plausible cells v :
  first_accepted cells = Some v -> plausible v = true.
Proof.
  induction cells as [|c cells IH]; simpl; [discriminate|].
  destruct (accepted c) eqn:A; [intros [= <-]; eauto using accepted_plausible|exact IH].
Qed.

Lemma first_accepted_truthy cells :
  truthy (first_accepted cells) = true <-> first_accepted cells <> None.
Proof.
  destruct (first_accepted cells) as [v|] eqn:F; simpl.
  - split; [discriminate|]. intros _.
    apply plausible_truthy. eauto using first_accepted_plausible.
  - split; [discriminate|congruence].
Qed.

Lemma skipn_cons_nth {A} (k : nat) (l : list A) (c d : A) (r : list A) :
  skipn k l = c :: r -> nth k l d = c /\ skipn (S k) l = r.
Proof.
  revert l. induction k as [|k IH]; intros [|x l]; simpl; try discriminate.
  - intros [= -> ->]. now split.
  - intros H. apply IH in H. exact H.
Qed.

(** The inner loop visits the cells after index [i] left to right and
    stops at the first accepted one. *)
Lemma for_j_first_accepted (cell_text : list string) (rest : list string) :
  forall k cad_rate,
    skipn k cell_text = rest ->
    for_j cell_text (seq k (List.length rest)) cad_rate =
    match first_accepted rest with
    | Some rate => Some rate
    | None => cad_rate
    end.
Proof.
  induction rest as [|c rest IH]; intros k cad H; simpl; [reflexivity|].
  destruct (skipn_cons_nth k cell_text c EmptyString rest H) as [-> H'].
  unfold accepted.
  destruct (float_of_string (remove_char "," c)) as [r|]; [|now apply IH].
  destruct (plausible r); [reflexivity|now apply IH].
Qed.

Lemma first_accepted_after_marker cells :
  first_accepted cells = None -> first_accepted (after_marker cells) = None.
Proof.
  induction cells as [|c cells IH]; simpl; [reflexivity|].
  destruct (accepted c); [discriminate|]. intros H.
  destruct (is_marker c); auto.
Qed.

Lemma for_i_row_value (cell_text : list string) (rest : list string) :
  forall i,
    skipn i cell_text = rest ->
    for_i cell_text i rest None = first_accepted (after_marker rest).
Proof.
  induction rest as [|text rest IH]; intros i H; simpl; [reflexivity|].
  destruct (skipn_cons_nth i cell_text text EmptyString rest H) as [_ H'].
  destruct (is_marker text); [|now apply IH].
  assert (L : (List.length cell_text - (i + 1))%nat = List.length rest).
  { rewrite <- H', length_skipn. f_equal. lia. }
  rewrite L, (for_j_first_accepted cell_text rest (i + 1) None)
    by (now rewrite Nat.add_1_r).
  destruct (first_accepted rest) as [v|] eqn:F.
  - unfold truthy.
    rewrite (plausible_truthy v) by eauto using first_accepted_plausible.
    reflexivity.
  - simpl. rewrite IH by assumption. now apply first_accepted_after_marker.
Qed.

Lemma for_row_structured_scan (rows : list (list string)) :
  for_row rows None = structured_scan rows.
Proof.
  induction rows as [|row rows IH]; simpl; [reflexivity|].
  rewrite (for_i_row_value row row 0 eq_refl). fold (row_value row).
  destruct (row_value row) as [v|] eqn:R; simpl; [|exact IH].
  unfold row_value in R.
  now rewrite (plausible_truthy v) by eauto using first_accepted_plausible.
Qed.

Lemma structured_scan_plausible rows v :
  structured_scan rows = Some v -> plausible v = true.
Proof.
  induction rows as [|row rows IH]; simpl; [discriminate|].
  destruct (row_value row) eqn:R; [|exact IH].
  intros [= <-]. unfold row_value in R. eauto using first_accepted_plausible.
Qed.

Lemma pattern_value_plausible p raw v :
  pattern_value p raw = Some v -> plausible v = true.
Proof.
  unfold pattern_value. destruct (re_search p raw); [|discriminate].
  destruct (float_of_string _) as [r|]; [|discriminate].
  destruct (plausible r) eqn:P; [|discriminate]. now intros [= <-].
Qed.

(** The pattern loop tries the patterns in order and keeps the first
    plausible first match. *)
Lemma for_pattern_first (ps : list pattern) (raw : string) (cad_rate : option float) :
  for_pattern ps raw cad_rate =
  fold_right (fun p later =>
                match pattern_value p raw with
                | Some rate => Some rate
                | None => later
                end) cad_rate ps.
Proof.
  induction ps as [|p ps IH]; simpl; [reflexivity|].
  unfold pattern_value. destruct (re_search p raw); [|exact IH].
  destruct (float_of_string _) as [r|]; [|exact IH].
  destruct (plausible r); [reflexivity|exact IH].
Qed.

(** The extractor, strategy by strategy. *)
Lemma extract_rate_spec (page : soup) :
  extract_rate page =
  match structured_scan (find_all_tr page) with
  | Some rate => Some rate
  | None =>
      if contains "CAD" (get_text page) then
        match pattern_value pattern_CAD (get_text page) with
        | Some rate => Some rate
        | None => pattern_value pattern_Canadian_Dollar (get_text page)
        end
      else None
  end.
Proof.
  unfold extract_rate, table_scan. rewrite for_row_structured_scan.
  destruct (structured_scan _) as [v|] eqn:S; simpl.
  - now rewrite (plausible_truthy v) by eauto using structured_scan_plausible.
  - unfold pattern_scan. destruct (contains "CAD" _); [|reflexivity].
    rewrite for_pattern_first. simpl.
    destruct (pattern_value pattern_CAD _); [reflexivity|].
    now destruct (pattern_value pattern_Canadian_Dollar _).
Qed.

Lemma extract_rate_plausible (page : soup) (v : float) :
  extract_rate page = Some v -> plausible v = true.
Proof.
  rewrite extract_rate_spec.
  destruct (structured_scan _) eqn:S.
  - intros [= <-]. eauto using structured_scan_plausible.
  - destruct (contains _ _); [|discriminate].
    destruct (pattern_value pattern_CAD _) eqn:P1.
    + intros [= <-]. eauto using pattern_value_plausible.
    + eauto using pattern_value_plausible.
Qed.

Lemma extract_rate_truthy (page : soup) :
  truthy (extract_rate page) = true <-> extract_rate page <> None.
Proof.
  destruct (extract_rate page) as [v|] eqn:E; simpl.
  - split; [discriminate|]. intros _.
    apply plausible_truthy. eauto using extract_rate_plausible.
  - split; [discriminate|congruence].
Qed.

(* ================================================================== *)
(** * The regular expressions, deterministically                       *)
(* ================================================================== *)

Lemma match_here_lits (m : string) (p : pattern) :
  forall s cap,
    match_here (lits m ++ p)%list s cap =
    if startswith m s then match_here p (drop (String.length m) s) cap else None.
Proof.
  induction m as [|a m IH]; intros s cap; [reflexivity|].
  destruct s as [|b s]; [reflexivity|].
  cbn [lits app match_here lit qnt cls startswith drop String.length].
  destruct (Ascii.eqb a b); [|reflexivity].
  cbn [andb capture in_group]. apply IH.
Qed.

Lemma match_here_star_cons (p : ascii -> bool) (g : bool) (rest : pattern) c s cap :
  match_here (Item p Star g :: rest) (String c s) cap =
  if p c then
    match match_here (Item p Star g :: rest) s (capture (Item p Star g) c cap) with
    | Some r => Some r
    | None => match_here rest (String c s) cap
    end
  else match_here rest (String c s) cap.
Proof. reflexivity. Qed.

Lemma match_here_star_nil (p : ascii -> bool) (g : bool) (rest : pattern) cap :
  match_here (Item p Star g :: rest) EmptyString cap = match_here rest EmptyString cap.
Proof. reflexivity. Qed.

Lemma match_here_plus (p : ascii -> bool) (g : bool) (rest : pattern) s cap :
  match_here (Item p Plus g :: rest) s cap =
  match s with
  | String c s' =>
      if p c then match_here (Item p Star g :: rest) s' (capture (Item p Star g) c cap)
      else None
  | EmptyString => None
  end.
Proof. destruct s; reflexivity. Qed.

Lemma match_here_one (p : ascii -> bool) (g : bool) (rest : pattern) s cap :
  match_here (Item p One g :: rest) s cap =
  match s with
  | String c s' => if p c then match_here rest s' (capture (Item p One g) c cap) else None
  | EmptyString => None
  end.
Proof. destruct s; reflexivity. Qed.

Lemma append_assoc_char (a : string) (c : ascii) (b : string) :
  (a ++ String c EmptyString) ++ b = a ++ String c b.
Proof. induction a as [|x a IH]; simpl; [reflexivity|now rewrite IH]. Qed.

Lemma append_empty_r (a : string) : a ++ EmptyString = a.
Proof. induction a as [|x a IH]; simpl; [reflexivity|now rewrite IH]. Qed.

(** A trailing [\d*] inside the group takes every digit there is. *)
Lemma match_digits_last (s cap : string) :
  match_here [Item isdigit Star true] s cap = Some (cap ++ fst (span isdigit s)).
Proof.
  revert cap. induction s as [|c s IH]; intros cap.
  - rewrite match_here_star_nil. simpl. now rewrite append_empty_r.
  - rewrite match_here_star_cons. simpl span.
    destruct (isdigit c).
    + rewrite IH. unfold capture; simpl in_group.
      destruct (span isdigit s) as [a b]. simpl. now rewrite append_assoc_char.
    + simpl. now rewrite append_empty_r.
Qed.

Lemma isdigit_not_point (c : ascii) : isdigit c = true -> Ascii.eqb "." c = false.
Proof.
  intros H. destruct (Ascii.eqb_spec "."%char c) as [<-|]; [discriminate H|reflexivity].
Qed.

(** [\d*\.\d+] inside the group: giving a digit back never helps, for
    a digit is not a point. *)
Lemma match_digits_point_digits (s cap : string) :
  match_here [Item isdigit Star true; Item (Ascii.eqb ".") One true;
              Item isdigit Plus true] s cap =
  let '(d1, r1) := span isdigit s in
  match r1 with
  | String "." r2 =>
      let '(d2, _) := span isdigit r2 in
      match d2 with
      | String _ _ => Some (cap ++ d1 ++ "." ++ d2)
      | EmptyString => None
      end
  | _ => None
  end.
Proof.
  revert cap. induction s as [|c s IH]; intros cap.
  - reflexivity.
  - rewrite match_here_star_cons. simpl span.
    destruct (isdigit c) eqn:D.
    + rewrite IH. unfold capture at 1; simpl in_group.
      destruct (span isdigit s) as [d1 r1].
      rewrite match_here_one, (isdigit_not_point c D).
      destruct r1 as [|x r2]; [reflexivity|].
      destruct (Ascii.eqb_spec x "."%char) as [->|N].
      * destruct (span isdigit r2) as [d2 r3]. destruct d2; [reflexivity|].
        simpl. now rewrite append_assoc_char.
      * destruct x as [[] [] [] [] [] [] [] []]; try reflexivity. now elim N.
    + rewrite match_here_one.
      destruct (Ascii.eqb_spec "."%char c) as [<-|N].
      * rewrite match_here_plus. destruct s as [|y s]; [reflexivity|].
        simpl span. destruct (isdigit y) eqn:Dy; [|reflexivity].
        rewrite match_digits_last. unfold capture; simpl in_group.
        destruct (span isdigit s) as [a b]. simpl.
        now rewrite !append_assoc_char.
      * destruct c as [[] [] [] [] [] [] [] []]; try reflexivity. now elim N.
Qed.

Lemma match_plus_point_digits (s cap : string) :
  match_here [Item isdigit Plus true; Item (Ascii.eqb ".") One true;
              Item isdigit Plus true] s cap =
  let '(d1, r1) := span isdigit s in
  match d1, r1 with
  | String _ _, String "." r2 =>
      let '(d2, _) := span isdigit r2 in
      match d2 with
      | String _ _ => Some (cap ++ d1 ++ "." ++ d2)
      | EmptyString => None
      end
  | _, _ => None
  end.
Proof.
  rewrite match_here_plus. destruct s as [|c s]; [reflexivity|].
  simpl span. destruct (isdigit c); [|reflexivity].
  rewrite match_digits_point_digits. unfold capture; simpl in_group.
  destruct (span isdigit s) as [d1 r1].
  destruct r1 as [|x r2]; [reflexivity|].
  destruct (Ascii.eqb_spec x "."%char) as [->|N].
  - destruct (span isdigit r2) as [d2 r3]. destruct d2; [reflexivity|].
    simpl. now rewrite append_assoc_char.
  - destruct x as [[] [] [] [] [] [] [] []]; try reflexivity. now elim N.
Qed.

(** [[^\d]*(\d+\.\d+)] finds what the deterministic scan finds: the
    skipped characters cannot start a number, so backtracking over them
    never succeeds. *)
Lemma match_decimal_tail (s cap : string) :
  match_here decimal_tail s cap = option_map (append cap) (decimal_after s).
Proof.
  unfold decimal_tail, decimal_after.
  induction s as [|c s IH].
  - reflexivity.
  - rewrite match_here_star_cons. simpl dropwhile.
    destruct (not_digit c) eqn:D.
    + unfold capture at 1; simpl in_group; cbv iota. rewrite IH.
      destruct (option_map _ _); [reflexivity|].
      rewrite match_here_plus.
      unfold not_digit in D. apply negb_true_iff in D. now rewrite D.
    + rewrite match_plus_point_digits.
      destruct (span isdigit (String c s)) as [d1 r1].
      destruct d1; [reflexivity|]. destruct r1 as [|x r2]; [reflexivity|].
      destruct x as [[] [] [] [] [] [] [] []]; try reflexivity.
      destruct (span isdigit r2) as [d2 r3]. now destruct d2.
Qed.

Lemma option_map_append_empty (o : option string) :
  option_map (append EmptyString) o = o.
Proof. now destruct o. Qed.

(** [re.search] with a marker pattern returns the decimal after the
    first occurrence of the marker that a decimal follows. *)
Lemma re_search_first_occurrence (marker raw : string) :
  re_search (lits marker ++ decimal_tail)%list raw = first_occurrence marker raw.
Proof.
  induction raw as [|c raw IH].
  - simpl re_search. simpl first_occurrence.
    rewrite match_here_lits, match_decimal_tail, option_map_append_empty.
    destruct (startswith marker EmptyString); [|reflexivity].
    now destruct (decimal_after _).
  - simpl re_search. simpl first_occurrence.
    rewrite match_here_lits, match_decimal_tail, option_map_append_empty, IH.
    reflexivity.
Qed.


Lemma first_occurrence_cons (marker : string) (c : ascii) (raw : string) :
  first_occurrence marker (String c raw) =
  match
    (if startswith marker (String c raw)
     then decimal_after (drop (String.length marker) (String c raw))
     else None)
  with
  | Some g => Some g
  | None => first_occurrence marker raw
  end.
Proof. reflexivity. Qed.


(* ================================================================== *)
(** * Claims about the extractor                                       *)
(* ================================================================== *)

Lemma float_of_1_3612 : float_of_string "1.3612" = Some f_1_3612.
Proof. vm_compute. reflexivity. Qed.


Lemma float_of_150 : float_of_string "150.0" = Some f_150.
Proof. vm_compute. reflexivity. Qed.

Lemma table_scan_plausible (page : soup) (v : float) :
  table_scan page = Some v -> plausible v = true.
Proof.
  unfold table_scan. rewrite for_row_structured_scan.
  apply structured_scan_plausible.
Qed.

Lemma pattern_scan_plausible (page : soup) (v : float) :
  pattern_scan page None = Some v -> plausible v = true.
Proof.
  unfold pattern_scan. destruct (contains _ _); [|discriminate].
  rewrite for_pattern_first. simpl fold_right.
  destruct (pattern_value pattern_CAD _) eqn:P1.
  - intros [= <-]. eauto using pattern_value_plausible.
  - destruct (pattern_value pattern_Canadian_Dollar _) eqn:P2; [|discriminate].
    intros [= <-]. eauto using pattern_value_plausible.
Qed.

(** C2.  Whatever the structured scan, the pattern fallback or the
    extractor as a whole returns lies strictly between 0.5 and 2.5, so
    a value [v <= 0.5] or [v >= 2.5] is never returned; and a page whose
    only candidate is 150.0 next to the currency marker, in a table
    cell and in the raw text, yields no rate. *)
Theorem rate_within_open_interval :
  (forall (page : soup) (v : float),
      table_scan page = Some v \/ pattern_scan page None = Some v
      \/ extract_rate page = Some v ->
      flt half v = true /\ flt v two_and_half = true
      /\ fle v half = false /\ fle two_and_half v = false)
  /\ accepted "150.0" = None
  /\ pattern_value pattern_CAD "CAD 150.0" = None
  /\ extract_rate {| find_all_tr := [["CAD"; "150.0"]]; get_text := "CAD 150.0" |} = None.
Proof.
  split; [|repeat split; vm_compute; reflexivity].
  intros page v H.
  assert (P : plausible v = true).
  { destruct H as [H|[H|H]];
      eauto using table_scan_plausible, pattern_scan_plausible, extract_rate_plausible. }
  destruct (plausible_bounds v P) as [L U].
  repeat split; auto using flt_not_fle.
Qed.

Lemma rate_within_open_interval_witness :
  flt half f_1_3612 = true /\ flt f_1_3612 two_and_half = true
  /\ fle f_1_3612 half = false /\ fle two_and_half f_1_3612 = false.
Proof.
  apply (proj1 rate_within_open_interval
           {| find_all_tr := [["CAD"; "1.3612"]]; get_text := EmptyString |} f_1_3612).
  right; right. vm_compute. reflexivity.
Defined.






Lemma first_occurrence_contains (marker raw g : string) :
  first_occurrence marker raw = Some g -> contains marker raw = true.
Proof.
  induction raw as [|c raw IH].
  - simpl. destruct (startswith marker EmptyString); [reflexivity|].
    discriminate.
  - rewrite first_occurrence_cons. simpl contains.
    destruct (startswith marker (String c raw)); [reflexivity|].
    intros H. simpl. now apply IH.
Qed.



Lemma pattern_CAD_first_occurrence (raw : string) :
  re_search pattern_CAD raw = first_occurrence "CAD" raw.
Proof. apply (re_search_first_occurrence "CAD"). Qed.

Lemma pattern_Canadian_Dollar_first_occurrence (raw : string) :
  re_search pattern_Canadian_Dollar raw = first_occurrence "Canadian Dollar" raw.
Proof. apply (re_search_first_occurrence "Canadian Dollar"). Qed.




(** C10.  When the first match of the "CAD" pattern carries an
    implausible decimal, the fallback's answer is that of the
    "Canadian Dollar" pattern alone: no later occurrence of "CAD" is
    looked at.  The first match is the decimal after the first "CAD"
    that a decimal follows. *)
Theorem fallback_first_match_only (page : soup) (g : string) :
  table_scan page = None ->
  re_search pattern_CAD (get_text page) = Some g ->
  (forall r, float_of_string g = Some r -> plausible r = false) ->
  extract_rate page = pattern_value pattern_Canadian_Dollar (get_text page)
  /\ pattern_scan page None = pattern_value pattern_Canadian_Dollar (get_text page)
  /\ first_occurrence "CAD" (get_text page) = Some g.
Proof.
  intros T S I.
  assert (F : first_occurrence "CAD" (get_text page) = Some g)
    by now rewrite <- pattern_CAD_first_occurrence.
  assert (P : pattern_value pattern_CAD (get_text page) = None).
  { unfold pattern_value. rewrite S.
    destruct (float_of_string g) as [r|]; [|reflexivity].
    now rewrite (I r eq_refl). }
  repeat split.
  - rewrite extract_rate_spec.
    unfold table_scan in T. rewrite for_row_structured_scan in T. rewrite T.
    now rewrite (first_occurrence_contains _ _ _ F), P.
  - unfold pattern_scan. rewrite (first_occurrence_contains _ _ _ F).
    rewrite for_pattern_first. simpl fold_right. rewrite P.
    now destruct (pattern_value pattern_Canadian_Dollar _).
  - exact F.
Qed.

Lemma fallback_first_match_only_witness :
  extract_rate {| find_all_tr := []; get_text := "CAD 150.0 yesterday, CAD 1.29 today" |}
  = None.
Proof.
  refine (proj1 (fallback_first_match_only
            {| find_all_tr := []; get_text := "CAD 150.0 yesterday, CAD 1.29 today" |}
            "150.0" _ _ _)).
  - reflexivity.
  - vm_compute. reflexivity.
  - intros r H. rewrite float_of_150 in H. injection H as <-. vm_compute. reflexivity.
Defined.

(* ================================================================== *)
(** * The effect monad and its primitives                              *)
(* ================================================================== *)

Lemma bind_Return {A B} (m : M A) (k : A -> M B) (w w' : World) (a : A) :
  m w = (Return a, w') -> bind m k w = k a w'.
Proof. unfold bind. now intros ->. Qed.

Lemma bind_Raise {A B} (m : M A) (k : A -> M B) (w w' : World) (e : exn) :
  m w = (Raise e, w') -> bind m k w = (Raise e, w').
Proof. unfold bind. now intros ->. Qed.

Lemma bind_modify {B} (f : World -> World) (k : unit -> M B) (w : World) :
  bind (modify f) k w = k tt (f w).
Proof. reflexivity. Qed.

Lemma bind_get_world {B} (k : World -> M B) (w : World) : bind get_world k w = k w w.
Proof. reflexivity. Qed.

Lemma bind_ret {A B} (a : A) (k : A -> M B) (w : World) : bind (ret a) k w = k a w.
Proof. reflexivity. Qed.

Lemma bind_time_time {B} (k : Q -> M B) (w : World) :
  bind time_time k w = k (clock (tick w)) (tick w).
Proof. reflexivity. Qed.

Lemma bind_random_uniform {B} (a b : Q) (k : Q -> M B) (w : World) :
  bind (random_uniform a b) k w
  = k (qadd a (qmul (qsub b a) (unit_draw w))) (advance w).
Proof. reflexivity. Qed.

Lemma bind_bind {A B C} (m : M A) (f : A -> M B) (g : B -> M C) (w : World) :
  bind (bind m f) g w = bind m (fun x => bind (f x) g) w.
Proof. unfold bind. destruct (m w) as [[a|e] w']; reflexivity. Qed.

Lemma bind_draw {B} (k : N -> M B) (w : World) :
  bind draw k w = k (oracle w (cursor w)) (advance w).
Proof. reflexivity. Qed.

Lemma bind_elapse {B} (k : unit -> M B) (w : World) : bind elapse k w = k tt (tick w).
Proof. reflexivity. Qed.

Lemma bind_raise {A B} (e : exn) (k : A -> M B) (w : World) :
  bind (raise e) k w = (Raise e, w).
Proof. reflexivity. Qed.

(** Runs the deterministic prefix of a computation. *)
Ltac run :=
  repeat first
    [ rewrite bind_bind | rewrite bind_ret | rewrite bind_modify
    | rewrite bind_get_world | rewrite bind_draw | rewrite bind_elapse
    | rewrite bind_raise ].

Lemma elapse_tick (w : World) : elapse w = (Return tt, tick w).
Proof. reflexivity. Qed.

Lemma time_time_tick (w : World) : time_time w = (Return (clock (tick w)), tick w).
Proof. reflexivity. Qed.

Lemma random_uniform_draw (a b : Q) (w : World) :
  random_uniform a b w = (Return (qadd a (qmul (qsub b a) (unit_draw w))), advance w).
Proof. reflexivity. Qed.

Local Open Scope Q_scope.

Lemma qadd_correct (x y : Q) : qadd x y == x + y.
Proof. apply Qred_correct. Qed.

Lemma qsub_correct (x y : Q) : qsub x y == x - y.
Proof. apply Qred_correct. Qed.

Lemma qmul_correct (x y : Q) : qmul x y == x * y.
Proof. apply Qred_correct. Qed.

Lemma Qltb_true (x y : Q) : Qltb x y = true -> x < y.
Proof.
  unfold Qltb. intros H. apply negb_true_iff in H.
  apply Qnot_le_lt. intros L. apply Qle_bool_iff in L. congruence.
Qed.

Lemma Qltb_false (x y : Q) : Qltb x y = false -> y <= x.
Proof.
  unfold Qltb. intros H. apply negb_false_iff in H. now apply Qle_bool_iff.
Qed.

Lemma Qltb_ge (x y : Q) : y <= x -> Qltb x y = false.
Proof.
  intros H. unfold Qltb. apply negb_false_iff. now apply Qle_bool_iff.
Qed.

Lemma nanoseconds_nonneg (n : N) : 0 <= nanoseconds n.
Proof. unfold nanoseconds, Qle. cbn [Qnum Qden]. lia. Qed.

(** [random.random()] lies in [[0, 1)]. *)
Lemma unit_draw_range (w : World) : 0 <= unit_draw w /\ unit_draw w < 1.
Proof.
  unfold unit_draw.
  change (2 ^ 53)%N with 9007199254740992%N.
  change (2 ^ 53)%positive with 9007199254740992%positive.
  pose proof (N.mod_lt (oracle w (cursor w)) 9007199254740992%N) as H.
  assert (L : (oracle w (cursor w) mod 9007199254740992 < 9007199254740992)%N)
    by (apply H; discriminate).
  clear H. revert L.
  generalize (oracle w (cursor w) mod 9007199254740992)%N. intros r L.
  unfold Qle, Qlt. cbn [Qnum Qden]. split; lia.
Qed.

Lemma tick_clock (w : World) : clock w <= clock (tick w).
Proof.
  unfold tick, advance. cbn [clock set_clock set_cursor].
  rewrite qadd_correct. pose proof (nanoseconds_nonneg (oracle w (cursor w))). lra.
Qed.

Lemma time_sleep_spec (secs : Q) (w : World) :
  0 <= secs ->
  time_sleep secs w =
  (Return tt, tick (add_event (Slept secs) (set_clock (qadd (clock w) secs) w))).
Proof. intros H. unfold time_sleep. now rewrite (Qltb_ge secs 0 H). Qed.

(* ================================================================== *)
(** * The pacing controller                                            *)
(* ================================================================== *)

Lemma same_outside_refl (w : World) : same_outside w w.
Proof. now repeat split. Qed.

Lemma same_outside_trans (w1 w2 w3 : World) :
  same_outside w1 w2 -> same_outside w2 w3 -> same_outside w1 w3.
Proof.
  intros (A1 & A2 & A3 & A4) (B1 & B2 & B3 & B4).
  repeat split; congruence.
Qed.

Lemma tick_same_outside (w : World) : same_outside w (tick w).
Proof. now repeat split. Qed.

Lemma tick_limiter (w : World) : limiter (tick w) = limiter w.
Proof. reflexivity. Qed.

(** Lines 44-50: on return the recorded time is the clock's, and at
    least [delay] later than the previously recorded time. *)
Lemma hold_back_spec (delay : Q) (w : World) :
  exists w' : World,
    hold_back delay w = (Return tt, w')
    /\ last_request_time (limiter w') = clock w'
    /\ delay <= last_request_time (limiter w') - last_request_time (limiter w)
    /\ request_count (limiter w') = request_count (limiter w)
    /\ session_start (limiter w') = session_start (limiter w)
    /\ clock w <= clock w'
    /\ same_outside w w'.
Proof.
  unfold hold_back. rewrite bind_time_time, bind_get_world.
  rewrite tick_limiter.
  set (now := clock (tick w)). set (last := last_request_time (limiter w)).
  pose proof (tick_clock w) as T0. fold now in T0.
  destruct (Qltb (qsub now last) delay) eqn:E.
  - apply Qltb_true in E. rewrite qsub_correct in E.
    assert (P : 0 <= qsub delay (qsub now last)).
    { rewrite !qsub_correct. lra. }
    rewrite (bind_Return _ _ _ _ _ (time_sleep_spec _ (tick w) P)).
    rewrite bind_time_time. unfold modify.
    set (w1 := tick (add_event _ _)).
    pose proof (tick_clock w1) as T1.
    assert (C1 : now + (delay - (now - last)) <= clock w1).
    { subst w1. eapply Qle_trans; [|apply tick_clock].
      cbn [clock add_event set_clock]. fold now.
      rewrite qadd_correct, !qsub_correct. lra. }
    eexists. split; [reflexivity|].
    cbn [limiter set_limiter last_request_time set_last_request_time request_count
         session_start clock].
    repeat split; try reflexivity; fold last; lra.
  - apply Qltb_false in E. rewrite qsub_correct in E.
    rewrite bind_ret, bind_time_time. unfold modify.
    pose proof (tick_clock (tick w)) as T1. fold now in T1.
    eexists. split; [reflexivity|].
    cbn [limiter set_limiter last_request_time set_last_request_time request_count
         session_start clock].
    repeat split; try reflexivity; fold last; lra.
Qed.

(** Line 38-42 for the module's limiter: the cooldown plus a jitter on
    every fifth call, and otherwise a draw between the two delays. *)
Lemma choose_delay_spec (count : Z) (w : World) :
  exists delay : Q,
    choose_delay rate_limiter count w = (Return delay, advance w)
    /\ if (count mod 5 =? 0)%Z
       then delay == 20 + 5 * unit_draw w
       else delay == (5 # 2) + (5 # 2) * unit_draw w.
Proof.
  unfold choose_delay.
  cbn [burst_limit rate_limiter min_delay max_delay burst_cooldown].
  change (5 =? 0)%Z with false. cbv iota.
  destruct (count mod 5 =? 0)%Z.
  - rewrite bind_random_uniform. eexists. split; [reflexivity|].
    rewrite !qadd_correct, qmul_correct, qsub_correct. lra.
  - rewrite random_uniform_draw. eexists. split; [reflexivity|].
    rewrite !qadd_correct, qmul_correct, qsub_correct. lra.
Qed.

Lemma advance_same_outside (w : World) : same_outside w (advance w).
Proof. now repeat split. Qed.

(** Everything later proofs need to know about one call of [wait]. *)
Lemma wait_spec (w : World) :
  exists (delay : Q) (w' : World),
    wait rate_limiter w = (Return delay, w')
    /\ request_count (limiter w') = (request_count (limiter w) + 1)%Z
    /\ last_request_time (limiter w') = clock w'
    /\ delay <= last_request_time (limiter w') - last_request_time (limiter w)
    /\ (if ((request_count (limiter w) + 1) mod 5 =? 0)%Z
        then delay == 20 + 5 * unit_draw w
        else delay == (5 # 2) + (5 # 2) * unit_draw w)
    /\ clock w <= clock w'
    /\ same_outside w w'.
Proof.
  unfold wait. rewrite bind_modify, bind_get_world.
  cbn [limiter set_limiter request_count set_request_count].
  set (w1 := set_limiter _ w).
  destruct (choose_delay_spec (request_count (limiter w) + 1) w1) as (delay & C & D).
  rewrite (bind_Return _ _ _ _ _ C).
  destruct (hold_back_spec delay (advance w1)) as (w' & H & L & S & R & _ & K & O).
  rewrite (bind_Return _ _ _ _ _ H). unfold ret.
  exists delay, w'. split; [reflexivity|].
  repeat split; try assumption.
  - rewrite (proj1 O). reflexivity.
  - rewrite (proj1 (proj2 O)). reflexivity.
  - rewrite (proj1 (proj2 (proj2 O))). reflexivity.
  - rewrite (proj2 (proj2 (proj2 O))). reflexivity.
Qed.

(** C5.  Every call of [wait] on the module's limiter returns.  The
    time it records on return is the clock's, and is at least [delay]
    after the time recorded by the previous call, with [delay] at
    least [min_delay] (2.5 s).  On every call whose number is a
    multiple of the burst limit 5 the delay is the cooldown 20 s plus a
    jitter [5 * u] in [[0, 5]], so the separation is at least 20 s; on
    every other call the delay is [2.5 + 2.5 * u], in [[2.5, 5]]; [u]
    is the value of [random.random()], in [[0, 1)].  Hence two
    consecutive calls, whatever else happens between them that leaves
    the limiter alone, return at least [min_delay] apart. *)
Theorem wait_paces_requests :
  (forall w : World,
      exists (delay : Q) (w' : World),
        wait rate_limiter w = (Return delay, w')
        /\ request_count (limiter w') = (request_count (limiter w) + 1)%Z
        /\ last_request_time (limiter w') = clock w'
        /\ delay <= last_request_time (limiter w') - last_request_time (limiter w)
        /\ min_delay rate_limiter <= delay
        /\ (0 <= unit_draw w /\ unit_draw w < 1)
        /\ if ((request_count (limiter w) + 1) mod burst_limit rate_limiter =? 0)%Z
           then delay == burst_cooldown rate_limiter + 5 * unit_draw w
                /\ burst_cooldown rate_limiter <= delay /\ delay <= 25
                /\ burst_cooldown rate_limiter
                   <= last_request_time (limiter w') - last_request_time (limiter w)
           else delay == min_delay rate_limiter
                         + (max_delay rate_limiter - min_delay rate_limiter)
                           * unit_draw w
                /\ min_delay rate_limiter <= delay /\ delay <= max_delay rate_limiter)
  /\ (forall (w w1 between w2 : World) (d1 d2 : Q),
         wait rate_limiter w = (Return d1, w1) ->
         limiter between = limiter w1 ->
         wait rate_limiter between = (Return d2, w2) ->
         min_delay rate_limiter <= clock w2 - clock w1
         /\ d2 <= clock w2 - clock w1
         /\ (((request_count (limiter w2)) mod burst_limit rate_limiter =? 0)%Z = true ->
             burst_cooldown rate_limiter <= clock w2 - clock w1)).
Proof.
  split.
  - intros w.
    destruct (wait_spec w) as (delay & w' & W & C & L & S & D & _).
    pose proof (unit_draw_range w) as [U0 U1].
    exists delay, w'. cbn [min_delay max_delay burst_limit burst_cooldown rate_limiter].
    destruct ((request_count (limiter w) + 1) mod 5 =? 0)%Z;
      repeat split; try assumption; try lra.
  - intros w w1 between w2 d1 d2 W1 B W2.
    destruct (wait_spec w) as (d1' & w1' & W1' & _ & L1 & _).
    rewrite W1 in W1'. injection W1' as <- <-.
    destruct (wait_spec between) as (d2' & w2' & W2' & C2 & L2 & S2 & D2 & _).
    rewrite W2 in W2'. injection W2' as <- <-.
    pose proof (unit_draw_range between) as [U0 U1].
    rewrite B, L1 in S2. rewrite L2 in S2. rewrite C2.
    cbn [min_delay max_delay burst_limit burst_cooldown rate_limiter].
    destruct ((request_count (limiter between) + 1) mod 5 =? 0)%Z;
      repeat split; try lra; discriminate.
Qed.

Lemma wait_paces_requests_witness :
  let first := wait rate_limiter (serving page_with_rate) in
  let second := wait rate_limiter (snd first) in
  5 # 2 <= clock (snd second) - clock (snd first).
Proof.
  pose (delay_of := fun r : outcome Q * World =>
                      match fst r with Return d => d | Raise _ => 0 end).
  refine (proj1 (proj2 wait_paces_requests
            (serving page_with_rate)
            (snd (wait rate_limiter (serving page_with_rate)))
            (snd (wait rate_limiter (serving page_with_rate)))
            (snd (wait rate_limiter (snd (wait rate_limiter (serving page_with_rate)))))
            (delay_of (wait rate_limiter (serving page_with_rate)))
            (delay_of (wait rate_limiter
                         (snd (wait rate_limiter (serving page_with_rate)))))
            _ _ _)).
  - vm_compute. reflexivity.
  - reflexivity.
  - vm_compute. reflexivity.
Defined.

Local Close Scope Q_scope.

(* ================================================================== *)
(** * The single-date fetcher                                          *)
(* ================================================================== *)

(** Whatever the outcome, a fetch sends exactly one request, to [url],
    and leaves the limiter alone. *)
Lemma fetch_page_world (url : string) (w : World) :
  exists (headers : list (string * string)),
    snd (fetch_page url w)
    = tick (advance (add_event (Requested url headers 30) (advance w))).
Proof.
  unfold fetch_page, get_headers, random_choice, session_get.
  eexists. run.
  match goal with
  | |- context [network ?a ?b ?c ?d] => destruct (network a b c d) as [e|response]
  end.
  - run. reflexivity.
  - run. unfold raise_for_status.
    destruct ((400 <=? status_code response) && (status_code response <? 500));
      [run; reflexivity|].
    destruct ((500 <=? status_code response) && (status_code response <? 600));
      [run; reflexivity|].
    run. unfold BeautifulSoup. run.
    match goal with
    | |- context [html_parser ?a ?b] => destruct (html_parser a b)
    end; reflexivity.
Qed.

Lemma fetch_page_frame (url : string) (w : World) :
  let w' := snd (fetch_page url w) in
  limiter w' = limiter w
  /\ requested (log w') = (requested (log w) ++ [url])%list
  /\ oracle w' = oracle w /\ network w' = network w /\ html_parser w' = html_parser w.
Proof.
  destruct (fetch_page_world url w) as (headers & E). cbv zeta. rewrite E.
  now repeat split.
Qed.

(** [scrape_xe_rate] after its call of [wait]: the result of the page
    when the fetch returns one, the error result when it raises. *)
Lemma scrape_xe_rate_after_wait (date_str : string) (w w1 : World) (delay : Q) :
  wait rate_limiter w = (Return delay, w1) ->
  scrape_xe_rate date_str w =
  match fetch_page (url_for date_str) w1 with
  | (Return page, w2) => (Return (result_of date_str (extract_rate page)), w2)
  | (Raise e, w2) => (Return (error_result date_str e), w2)
  end.
Proof.
  intros W. unfold scrape_xe_rate. rewrite (bind_Return _ _ _ _ _ W).
  unfold try_except, bind.
  destruct (fetch_page (url_for date_str) w1) as [[page|e] w2]; [reflexivity|].
  unfold on_exception, error_result, error_message, isinstance.
  destruct e as [[] msg]; reflexivity.
Qed.

(** The single-date fetcher always returns a result, for the date asked,
    having called [wait] once and sent one request. *)
Lemma scrape_xe_rate_returns (date_str : string) (w : World) :
  exists (r : FetchResult) (w' : World),
    scrape_xe_rate date_str w = (Return r, w')
    /\ date r = date_str
    /\ request_count (limiter w') = request_count (limiter w) + 1
    /\ requested (log w') = (requested (log w) ++ [url_for date_str])%list
    /\ oracle w' = oracle w /\ network w' = network w /\ html_parser w' = html_parser w
    /\ ((exists page, r = result_of date_str (extract_rate page))
        \/ (exists e, r = error_result date_str e)).
Proof.
  destruct (wait_spec w) as (delay & w1 & W & C & _ & _ & _ & _ & O1 & O2 & O3 & O4).
  rewrite (scrape_xe_rate_after_wait date_str w w1 delay W).
  pose proof (fetch_page_frame (url_for date_str) w1) as F. cbv zeta in F.
  destruct (fetch_page (url_for date_str) w1) as [[page|e] w2]; cbn [snd] in F;
    destruct F as (F1 & F2 & F3 & F4 & F5);
    eexists; eexists; (split; [reflexivity|]);
    (repeat split; try congruence).
  - unfold result_of. now destruct (truthy _).
  - left. now exists page.
  - right. now exists e.
Qed.

Lemma result_of_miss (date_str : string) (cad_rate : option float) :
  cad_rate = None ->
  result_of date_str cad_rate
  = {| date := date_str; rate := None; status := not_found;
       error := Some "CAD rate not found in page" |}.
Proof. now intros ->. Qed.

Lemma result_of_hit (date_str : string) (page : soup) (v : float) :
  extract_rate page = Some v ->
  result_of date_str (extract_rate page)
  = {| date := date_str; rate := Some v; status := success; error := None |}.
Proof.
  intros E. unfold result_of.
  rewrite (proj2 (extract_rate_truthy page)) by congruence. now rewrite E.
Qed.

(** The outcome of a fetch read off the world: the transport's
    exception, an [HTTPError] for a 4xx or 5xx status, the parser's
    exception, or the parsed page. *)
Lemma fetch_page_outcome (url : string) (w : World) :
  exists headers : list (string * string),
    fst (fetch_page url w) =
    match network w url headers (oracle w (S (cursor w))) with
    | inl e => Raise e
    | inr response =>
        let code := status_code response in
        let http_error_msg (kind : string) :=
          str_of_Z code ++ " " ++ kind ++ " Error: " ++ reason response
            ++ " for url: " ++ url_of response in
        if (400 <=? code) && (code <? 500)
        then Raise (Exn RequestException (http_error_msg "Client"))
        else if (500 <=? code) && (code <? 600)
        then Raise (Exn RequestException (http_error_msg "Server"))
        else
          match html_parser w (text response) with
          | inl e => Raise e
          | inr page => Return page
          end
    end.
Proof.
  unfold fetch_page, get_headers, random_choice, session_get.
  eexists. run.
  cbn [network oracle cursor tick advance add_event set_clock set_cursor html_parser].
  match goal with
  | |- context [network ?a ?b ?c ?d] =>
      destruct (network a b c d) as [e|response] eqn:N
  end; rewrite N.
  - run. reflexivity.
  - run. unfold raise_for_status. cbv zeta.
    destruct ((400 <=? status_code response) && (status_code response <? 500));
      [run; reflexivity|].
    destruct ((500 <=? status_code response) && (status_code response <? 600));
      [run; reflexivity|].
    run. unfold BeautifulSoup. run.
    cbn [network oracle cursor tick advance add_event set_clock set_cursor html_parser].
    destruct (html_parser w (text response)); reflexivity.
Qed.

(** C7, as the code has it.  When the fetch returns a page and the
    extractor finds no value in it, the result for the date has status
    [not_found], no rate, and the error "CAD rate not found in page". *)
Theorem extraction_miss_is_not_found
  (date_str : string) (w w1 w2 : World) (delay : Q) (page : soup) :
  wait rate_limiter w = (Return delay, w1) ->
  fetch_page (url_for date_str) w1 = (Return page, w2) ->
  extract_rate page = None ->
  scrape_xe_rate date_str w =
  (Return {| date := date_str; rate := None; status := not_found;
             error := Some "CAD rate not found in page" |}, w2).
Proof.
  intros W F E.
  rewrite (scrape_xe_rate_after_wait date_str w w1 delay W), F.
  now rewrite (result_of_miss date_str _ E).
Qed.

Lemma extraction_miss_is_not_found_witness :
  fst (scrape_xe_rate "2024-03-01" (serving page_without_rate))
  = Return {| date := "2024-03-01"; rate := None; status := not_found;
              error := Some "CAD rate not found in page" |}.
Proof.
  pose (w := serving page_without_rate).
  pose (r1 := wait rate_limiter w).
  pose (r2 := fetch_page (url_for "2024-03-01") (snd r1)).
  refine (f_equal fst
            (extraction_miss_is_not_found "2024-03-01" w (snd r1) (snd r2)
               (match fst r1 with Return d => d | Raise _ => 0%Q end)
               page_without_rate _ _ _)).
  - vm_compute. reflexivity.
  - vm_compute. reflexivity.
  - vm_compute. reflexivity.
Defined.

(** C7 as the specification states it fails: on a page without a rate
    the fetch succeeds, the extraction finds nothing, the status is
    [not_found] and the rate absent, but the error is not the text
    "rate not found in page". *)
Lemma extraction_miss_message_differs :
  exists (page : soup) (r : FetchResult),
    fst (fetch_page (url_for "2024-03-01")
           (snd (wait rate_limiter (serving page_without_rate))))
    = Return page
    /\ extract_rate page = None
    /\ fst (scrape_xe_rate "2024-03-01" (serving page_without_rate)) = Return r
    /\ status r = not_found /\ rate r = None
    /\ error r <> Some "rate not found in page".
Proof.
  exists page_without_rate.
  exists {| date := "2024-03-01"; rate := None; status := not_found;
            error := Some "CAD rate not found in page" |}.
  repeat split; try (vm_compute; reflexivity). discriminate.
Qed.

(** C8, as the code has it.  When the fetch raises, whether in the
    transport, in [raise_for_status] or in the parser, the exception is
    not propagated: the result for the date has status [error], no
    rate, and an error chosen by the class of the exception as the
    three [except] clauses do: "Request timed out" for a [Timeout] of
    [requests], the exception's own message for any other exception of
    [requests], and "Parsing error: " followed by the message for an
    exception of any other class, wherever it was raised. *)
Theorem failure_is_captured
  (date_str : string) (w w1 w2 : World) (delay : Q) (e : exn) :
  wait rate_limiter w = (Return delay, w1) ->
  fetch_page (url_for date_str) w1 = (Raise e, w2) ->
  scrape_xe_rate date_str w =
  (Return {| date := date_str; rate := None; status := error_status;
             error := Some match class_of e with
                           | Timeout => "Request timed out"
                           | RequestException => str_of e
                           | _ => "Parsing error: " ++ str_of e
                           end |}, w2).
Proof.
  intros W F.
  now rewrite (scrape_xe_rate_after_wait date_str w w1 delay W), F.
Qed.

Lemma failure_is_captured_witness :
  fst (scrape_xe_rate "2024-03-01"
         (unparseable (Exn Exception "Couldn't find a tree builder")))
  = Return {| date := "2024-03-01"; rate := None; status := error_status;
              error := Some "Parsing error: Couldn't find a tree builder" |}
  /\ fst (scrape_xe_rate "2024-03-01"
            (failing (Exn RequestException "Connection refused")))
     = Return {| date := "2024-03-01"; rate := None; status := error_status;
                 error := Some "Connection refused" |}
  /\ fst (scrape_xe_rate "2024-03-01" (failing (Exn Timeout "Read timed out.")))
     = Return {| date := "2024-03-01"; rate := None; status := error_status;
                 error := Some "Request timed out" |}.
Proof.
  split; [|split].
  - pose (w := unparseable (Exn Exception "Couldn't find a tree builder")).
    pose (r1 := wait rate_limiter w).
    pose (r2 := fetch_page (url_for "2024-03-01") (snd r1)).
    refine (f_equal fst
              (failure_is_captured "2024-03-01" w (snd r1) (snd r2)
                 (match fst r1 with Return d => d | Raise _ => 0%Q end)
                 (Exn Exception "Couldn't find a tree builder") _ _)).
    + vm_compute. reflexivity.
    + vm_compute. reflexivity.
  - pose (w := failing (Exn RequestException "Connection refused")).
    pose (r1 := wait rate_limiter w).
    pose (r2 := fetch_page (url_for "2024-03-01") (snd r1)).
    refine (f_equal fst
              (failure_is_captured "2024-03-01" w (snd r1) (snd r2)
                 (match fst r1 with Return d => d | Raise _ => 0%Q end)
                 (Exn RequestException "Connection refused") _ _)).
    + vm_compute. reflexivity.
    + vm_compute. reflexivity.
  - pose (w := failing (Exn Timeout "Read timed out.")).
    pose (r1 := wait rate_limiter w).
    pose (r2 := fetch_page (url_for "2024-03-01") (snd r1)).
    refine (f_equal fst
              (failure_is_captured "2024-03-01" w (snd r1) (snd r2)
                 (match fst r1 with Return d => d | Raise _ => 0%Q end)
                 (Exn Timeout "Read timed out.") _ _)).
    + vm_compute. reflexivity.
    + vm_compute. reflexivity.
Defined.

(** C8 as the specification states it fails.  When the transport times
    out the result has status [error], but its error is not the text
    "request timed out".  When the transport answers and the parser
    raises, the error does not start "parsing error: ".  And a failure
    of the transport that is not an exception of [requests] does not
    yield the transport's message: it is reported as a parsing
    error. *)
Lemma failure_messages_differ :
  (exists r : FetchResult,
      fst (fetch_page (url_for "2024-03-01")
             (snd (wait rate_limiter (failing (Exn Timeout "read timeout=30")))))
      = Raise (Exn Timeout "read timeout=30")
      /\ fst (scrape_xe_rate "2024-03-01" (failing (Exn Timeout "read timeout=30")))
         = Return r
      /\ status r = error_status
      /\ error r <> Some "request timed out")
  /\ (exists r : FetchResult,
         html_parser (unparseable (Exn Exception "boom")) "<html>"
         = inl (Exn Exception "boom")
         /\ fst (fetch_page (url_for "2024-03-01")
                   (snd (wait rate_limiter (unparseable (Exn Exception "boom")))))
            = Raise (Exn Exception "boom")
         /\ fst (scrape_xe_rate "2024-03-01" (unparseable (Exn Exception "boom")))
            = Return r
         /\ status r = error_status
         /\ error r <> Some "parsing error: boom")
  /\ (exists r : FetchResult,
         network (failing (Exn Exception "boom")) (url_for "2024-03-01") [] 0
         = inl (Exn Exception "boom")
         /\ fst (scrape_xe_rate "2024-03-01" (failing (Exn Exception "boom"))) = Return r
         /\ status r = error_status
         /\ error r <> Some "boom").
Proof.
  split; [|split].
  - exists {| date := "2024-03-01"; rate := None; status := error_status;
              error := Some "Request timed out" |}.
    repeat split; try (vm_compute; reflexivity). discriminate.
  - exists {| date := "2024-03-01"; rate := None; status := error_status;
              error := Some "Parsing error: boom" |}.
    repeat split; try (vm_compute; reflexivity). discriminate.
  - exists {| date := "2024-03-01"; rate := None; status := error_status;
              error := Some "Parsing error: boom" |}.
    repeat split; try (vm_compute; reflexivity). discriminate.
Qed.

(** C9.  The single-date fetcher always returns a result; its rate is
    a number exactly when its status is [success]; a rate that is
    present lies strictly between 0.5 and 2.5; a success carries no
    error and every other result carries one. *)
Theorem fetch_result_invariant (date_str : string) (w : World) :
  exists (r : FetchResult) (w' : World),
    scrape_xe_rate date_str w = (Return r, w')
    /\ date r = date_str
    /\ (rate r <> None <-> status r = success)
    /\ (forall v, rate r = Some v ->
                  flt half v = true /\ flt v two_and_half = true)
    /\ (status r = success -> error r = None)
    /\ (status r <> success -> rate r = None /\ error r <> None).
Proof.
  destruct (scrape_xe_rate_returns date_str w) as (r & w' & S & D & _ & _ & _ & _ & _ & K).
  exists r, w'. split; [exact S|]. split; [exact D|].
  destruct K as [[page ->]|[e ->]].
  - pose proof (extract_rate_plausible page) as P.
    pose proof (result_of_hit date_str page) as H.
    destruct (extract_rate page) as [v|].
    + rewrite (H v eq_refl). cbn [rate status error].
      split; [split; [reflexivity|discriminate]|].
      split; [intros v' E; injection E as <-; apply plausible_bounds; now apply P|].
      split; [reflexivity|]. intros N. now elim N.
    + rewrite (result_of_miss date_str None eq_refl). cbn [rate status error].
      split; [split; [intros N; now elim N|discriminate]|].
      split; [discriminate|]. split; [discriminate|].
      intros _. split; [reflexivity|discriminate].
  - unfold error_result. cbn [rate status error].
    split; [split; [intros N; now elim N|discriminate]|].
    split; [discriminate|]. split; [discriminate|].
    intros _. split; [reflexivity|discriminate].
Qed.

(* ================================================================== *)
(** * [get_date_range]                                                 *)
(* ================================================================== *)

Lemma while_current_done (current end_date : datetime) (dates : list string) :
  end_date < current -> while_current current end_date dates = Return dates.
Proof.
  intros H. rewrite while_current_equation_1.
  destruct (Z_le_gt_dec current end_date); [lia|reflexivity].
Qed.

Lemma while_current_step (current end_date : datetime) (dates : list string) :
  current <= end_date ->
  while_current current end_date dates =
  match add_days current 1 with
  | Return current' => while_current current' end_date (dates ++ [strftime current])%list
  | Raise e => Raise e
  end.
Proof.
  intros H. rewrite while_current_equation_1.
  destruct (Z_le_gt_dec current end_date); [|lia].
  cbn. now destruct (add_days current 1).
Qed.

Lemma add_days_in_range (d : datetime) :
  0 < d + 1 <= MAXORDINAL -> add_days d 1 = Return (d + 1).
Proof.
  intros [L U]. unfold add_days.
  destruct (0 <? d + 1) eqn:E1; [|lia].
  destruct (d + 1 <=? MAXORDINAL) eqn:E2; [reflexivity|lia].
Qed.

Lemma add_days_overflow (d : datetime) :
  MAXORDINAL < d + 1 ->
  add_days d 1 = Raise (Exn OverflowError "date value out of range").
Proof.
  intros H. unfold add_days.
  destruct (d + 1 <=? MAXORDINAL) eqn:E2; [lia|].
  now rewrite andb_false_r.
Qed.

(** Below the last representable day the loop returns one text per
    day, first to last. *)
Lemma while_current_days (n : nat) :
  forall (current end_date : datetime) (dates : list string),
    n = Z.to_nat (end_date + 1 - current) ->
    0 < current -> current <= end_date + 1 -> end_date < MAXORDINAL ->
    while_current current end_date dates
    = Return (dates ++ map strftime (days_from current n))%list.
Proof.
  induction n as [|n IH]; intros current end_date dates N P L U.
  - rewrite while_current_done by lia. simpl. now rewrite app_nil_r.
  - rewrite while_current_step by lia.
    rewrite add_days_in_range by lia.
    rewrite (IH (current + 1) end_date) by lia.
    simpl. now rewrite <- app_assoc.
Qed.

(** When the range ends on the last representable day the loop raises:
    after appending 9999-12-31 it adds one more day. *)
Lemma while_current_overflow (n : nat) :
  forall (current : datetime) (dates : list string),
    n = Z.to_nat (MAXORDINAL - current) ->
    0 < current -> current <= MAXORDINAL ->
    while_current current MAXORDINAL dates
    = Raise (Exn OverflowError "date value out of range").
Proof.
  induction n as [|n IH]; intros current dates N P L.
  - rewrite while_current_step by lia.
    now rewrite add_days_overflow by lia.
  - rewrite while_current_step by lia.
    rewrite add_days_in_range by lia.
    apply IH; lia.
Qed.

Lemma days_from_length (first : datetime) (count : nat) :
  List.length (days_from first count) = count.
Proof. revert first. induction count; intros; simpl; auto. Qed.

Lemma get_date_range_days (first last : datetime) :
  0 < first -> first <= last -> last < MAXORDINAL ->
  get_date_range first last
  = Return (map strftime (days_from first (Z.to_nat (last - first + 1)))).
Proof.
  intros P L U. unfold get_date_range.
  rewrite (while_current_days (Z.to_nat (last - first + 1))) by (try lia; f_equal; lia).
  reflexivity.
Qed.

Lemma get_date_range_overflow (first : datetime) :
  0 < first -> first <= MAXORDINAL ->
  get_date_range first MAXORDINAL
  = Raise (Exn OverflowError "date value out of range").
Proof.
  intros P L. unfold get_date_range.
  now apply (while_current_overflow (Z.to_nat (MAXORDINAL - first))).
Qed.

(* ================================================================== *)
(** * The [/api/scrape] route                                          *)
(* ================================================================== *)

Lemma strptime_raises_ValueError (s : string) (e : exn) :
  strptime s = Raise e -> class_of e = ValueError.
Proof.
  unfold strptime.
  destruct (match_Ymd s) as [[[[y m] d] r]|]; [|now intros [= <-]].
  destruct r; [|now intros [= <-]].
  destruct (y <? MINYEAR); [now intros [= <-]|].
  destruct (days_in_month y m <? d); [now intros [= <-]|discriminate].
Qed.

Lemma strptime_json_raises (v : json) (e : exn) :
  strptime_json v = Raise e ->
  isinstance e ValueError
  = match v with
    | JString _ => true
    | _ => false
    end.
Proof.
  destruct v; cbn [strptime_json]; try (intros [= <-]; reflexivity).
  intros H. unfold isinstance. now rewrite (strptime_raises_ValueError s e H).
Qed.

Lemma strptime_json_returns (v : json) (d : datetime) :
  strptime_json v = Return d ->
  exists s : string, v = JString s /\ strptime s = Return d /\ json_falsy v = false.
Proof.
  destruct v; cbn [strptime_json]; try discriminate.
  intros H. exists s. split; [reflexivity|]. split; [exact H|].
  destruct s; [vm_compute in H; discriminate|reflexivity].
Qed.

(** The route as one case analysis (lines 226-259): the four checks,
    an exception of [strptime] that is not a [ValueError] passing
    through, then [get_date_range] and the loop over its dates. *)
Lemma scrape_rates_unfold (data : RangeRequest) (w : World) :
  scrape_rates data w =
  if json_falsy (start_date data) || json_falsy (end_date data)
  then (Return (BadRequest "Start and end dates are required"), w)
  else
    let uncaught (e : exn) :=
      if isinstance e ValueError
      then (Return (BadRequest "Invalid date format. Use YYYY-MM-DD"), w)
      else (Raise e, w) in
    match strptime_json (start_date data) with
    | Raise e => uncaught e
    | Return first =>
        match strptime_json (end_date data) with
        | Raise e => uncaught e
        | Return last =>
            if last <? first
            then (Return (BadRequest "Start date must be before end date"), w)
            else if 90 <? days_between last first
            then (Return (BadRequest
                            "Date range cannot exceed 90 days to prevent rate limiting issues"),
                  w)
            else
              match get_date_range first last with
              | Raise e => (Raise e, w)
              | Return dates =>
                  match for_date dates [] w with
                  | (Return results, w') =>
                      (Return (Ok results (List.length results)
                                 (List.length (filter is_success results))), w')
                  | (Raise e, w') => (Raise e, w')
                  end
              end
        end
    end.
Proof.
  unfold scrape_rates.
  destruct (json_falsy (start_date data) || json_falsy (end_date data)); [reflexivity|].
  cbv zeta. unfold try_except, bind, lift, ret.
  destruct (strptime_json (start_date data)) as [first|e1];
    [|destruct (isinstance e1 ValueError); reflexivity].
  destruct (strptime_json (end_date data)) as [last|e2];
    [|destruct (isinstance e2 ValueError); reflexivity].
  destruct (last <? first); [reflexivity|].
  destruct (90 <? days_between last first); [reflexivity|].
  destruct (get_date_range first last) as [dates|e]; [|reflexivity].
  now destruct (for_date dates [] w) as [[results|e] w'].
Qed.





(** C1 at a range that ends on 9999-12-31: the request passes the
    validation, and [get_date_range] raises [OverflowError] when it
    adds a day to the last date; no result is returned and nothing is
    fetched. *)
Theorem range_to_last_day_raises (w : World) :
  scrape_rates
    {| start_date := JString "9999-12-31"; end_date := JString "9999-12-31" |} w
  = (Raise (Exn OverflowError "date value out of range"), w)
  /\ strptime "9999-12-31" = Return MAXORDINAL
  /\ get_date_range MAXORDINAL MAXORDINAL
     = Raise (Exn OverflowError "date value out of range").
Proof.
  assert (S : strptime "9999-12-31" = Return MAXORDINAL) by (vm_compute; reflexivity).
  assert (G : get_date_range MAXORDINAL MAXORDINAL
              = Raise (Exn OverflowError "date value out of range"))
    by (apply get_date_range_overflow; unfold MAXORDINAL; lia).
  split; [|split; assumption].
  rewrite scrape_rates_unfold. cbn [start_date end_date strptime_json].
  change (json_falsy (JString "9999-12-31")) with false. cbn [orb].
  rewrite S.
  change (MAXORDINAL <? MAXORDINAL) with false.
  change (90 <? days_between MAXORDINAL MAXORDINAL) with false.
  cbv iota. now rewrite G.
Qed.

Lemma first_match_some {A} (alts : list alternative) (k : Z -> string -> option A)
  (s : string) (x : A) :
  first_match alts k s = Some x ->
  exists a v r, In a alts /\ a s = Some (v, r) /\ k v r = Some x.
Proof.
  induction alts as [|a alts IH]; simpl; [discriminate|].
  destruct (a s) as [[v r]|] eqn:E.
  - destruct (k v r) as [y|] eqn:K.
    + intros [= <-]. exists a, v, r. auto.
    + intros H. destruct (IH H) as (a' & v' & r' & I & E' & K').
      exists a', v', r'. auto.
  - intros H. destruct (IH H) as (a' & v' & r' & I & E' & K').
    exists a', v', r'. auto.
Qed.

Lemma in_range_bounds (lo hi c : ascii) :
  in_range lo hi c = true ->
  (N_of_ascii lo <= N_of_ascii c /\ N_of_ascii c <= N_of_ascii hi)%N.
Proof.
  unfold in_range. intros H. apply andb_true_iff in H. destruct H as [L U].
  split; now apply N.leb_le.
Qed.

Lemma isdigit_bounds (c : ascii) :
  isdigit c = true -> 0 <= digit_Z c <= 9.
Proof.
  unfold isdigit, digit_Z, digit_value. intros H. apply andb_true_iff in H.
  destruct H as [L U]. apply N.leb_le in L, U. lia.
Qed.

Lemma two_chars_some (a b c d : ascii) (s : string) (v : Z) (r : string) :
  two_chars a b c d s = Some (v, r) ->
  exists x y,
    in_range a b x = true /\ in_range c d y = true
    /\ v = (if isdigit x then digit_Z x else 0) * 10 + digit_Z y.
Proof.
  unfold two_chars. destruct s as [|x [|y s]]; try discriminate.
  destruct (in_range a b x && in_range c d y) eqn:E; [|discriminate].
  apply andb_true_iff in E. destruct E as [E1 E2].
  intros [= <- <-]. now exists x, y.
Qed.

Lemma one_char_some (a b : ascii) (s : string) (v : Z) (r : string) :
  one_char a b s = Some (v, r) ->
  exists x, in_range a b x = true /\ v = digit_Z x.
Proof.
  unfold one_char. destruct s as [|x s]; try discriminate.
  destruct (in_range a b x) eqn:E; [|discriminate].
  intros [= <- <-]. now exists x.
Qed.

(** What [in_range] says about a character's digit value. *)
Ltac digit_bounds :=
  repeat match goal with
         | H : in_range _ _ ?x = true |- _ =>
             apply in_range_bounds in H; cbn in H
         end;
  unfold digit_Z, digit_value, isdigit in *;
  repeat match goal with
         | |- context [(?a <=? ?b)%N] => destruct (N.leb_spec a b)
         end;
  cbn [andb]; try lia.

Lemma directive_m_bounds (a : alternative) (s : string) (v : Z) (r : string) :
  In a directive_m -> a s = Some (v, r) -> 1 <= v <= 12.
Proof.
  intros I E. unfold directive_m in I. simpl in I.
  destruct I as [<-|[<-|[<-|[]]]].
  - apply two_chars_some in E. destruct E as (x & y & X & Y & ->).
    digit_bounds.
  - apply two_chars_some in E. destruct E as (x & y & X & Y & ->).
    digit_bounds.
  - apply one_char_some in E. destruct E as (x & X & ->).
    digit_bounds.
Qed.

Lemma directive_d_bounds (a : alternative) (s : string) (v : Z) (r : string) :
  In a directive_d -> a s = Some (v, r) -> 1 <= v <= 31.
Proof.
  intros I E. unfold directive_d in I. simpl in I.
  destruct I as [<-|[<-|[<-|[<-|[<-|[]]]]]].
  - apply two_chars_some in E. destruct E as (x & y & X & Y & ->).
    digit_bounds.
  - apply two_chars_some in E. destruct E as (x & y & X & Y & ->).
    digit_bounds.
  - apply two_chars_some in E. destruct E as (x & y & X & Y & ->).
    digit_bounds.
  - apply one_char_some in E. destruct E as (x & X & ->).
    digit_bounds.
  - apply two_chars_some in E. destruct E as (x & y & X & Y & ->).
    digit_bounds.
Qed.

(** The fields that ['%Y-%m-%d'] reads. *)
Lemma match_Ymd_bounds (s : string) (y m d : Z) (r : string) :
  match_Ymd s = Some (y, m, d, r) ->
  0 <= y <= 9999 /\ 1 <= m <= 12 /\ 1 <= d <= 31.
Proof.
  unfold match_Ymd, directive_Y.
  destruct s as [|a [|b [|c [|e s]]]]; try discriminate.
  destruct (isdigit a) eqn:Da; [|discriminate].
  destruct (isdigit b) eqn:Db; [|discriminate].
  destruct (isdigit c) eqn:Dc; [|discriminate].
  destruct (isdigit e) eqn:De; [|discriminate].
  cbn [andb]. unfold expect at 1.
  destruct s as [|dash s]; [discriminate|].
  destruct (Ascii.eqb dash "-"); [|discriminate].
  intros H. apply first_match_some in H.
  destruct H as (am & vm & rm & Im & Em & H).
  unfold expect in H. destruct rm as [|dash2 rm]; [discriminate|].
  destruct (Ascii.eqb dash2 "-"); [|discriminate].
  apply first_match_some in H.
  destruct H as (ad & vd & rd & Id & Ed & H).
  injection H as <- <- <- <-.
  pose proof (directive_m_bounds _ _ _ _ Im Em).
  pose proof (directive_d_bounds _ _ _ _ Id Ed).
  pose proof (isdigit_bounds a Da). pose proof (isdigit_bounds b Db).
  pose proof (isdigit_bounds c Dc). pose proof (isdigit_bounds e De).
  lia.
Qed.

Lemma days_before_month_nonneg (y m : Z) : 1 <= m <= 12 -> 0 <= days_before_month y m.
Proof.
  intros H. unfold days_before_month.
  assert (C : m = 1 \/ m = 2 \/ m = 3 \/ m = 4 \/ m = 5 \/ m = 6 \/ m = 7 \/ m = 8
              \/ m = 9 \/ m = 10 \/ m = 11 \/ m = 12) by lia.
  assert (B : 0 <= nth (Z.to_nat m) DAYS_BEFORE_MONTH 0).
  { repeat (destruct C as [->|C]; [vm_compute; discriminate|]).
    subst. vm_compute. discriminate. }
  destruct ((2 <? m) && is_leap y); lia.
Qed.

(** A parsed date is a day of the calendar's first year or later. *)
Lemma strptime_positive (s : string) (d : datetime) : strptime s = Return d -> 0 < d.
Proof.
  unfold strptime.
  destruct (match_Ymd s) as [[[[y m] dd] r]|] eqn:E; [|discriminate].
  destruct r; [|discriminate].
  destruct (y <? MINYEAR) eqn:Y; [discriminate|].
  destruct (days_in_month y m <? dd); [discriminate|].
  intros [= <-].
  destruct (match_Ymd_bounds _ _ _ _ _ E) as (By & Bm & Bd).
  pose proof (days_before_month_nonneg y m Bm).
  unfold MINYEAR in Y. unfold ymd2ord, days_before_year.
  assert (1 <= y) by lia.
  assert (0 <= (y - 1) / 4 - (y - 1) / 100).
  { assert ((y - 1) / 100 <= (y - 1) / 4); [|lia].
    apply Z.div_le_compat_l; lia. }
  assert (0 <= (y - 1) / 400) by (apply Z.div_pos; lia).
  lia.
Qed.

(** The loop over the dates calls the fetcher once per date, in order,
    and appends one result per date. *)
Lemma for_date_spec (dates : list string) :
  forall (results : list FetchResult) (w : World),
    exists (fetched : list FetchResult) (w' : World),
      for_date dates results w = (Return (results ++ fetched)%list, w')
      /\ map date fetched = dates
      /\ request_count (limiter w')
         = request_count (limiter w) + Z.of_nat (List.length dates)
      /\ requested (log w') = (requested (log w) ++ map url_for dates)%list.
Proof.
  induction dates as [|d dates IH]; intros results w.
  - exists [], w. simpl. rewrite !app_nil_r. repeat split. lia.
  - destruct (scrape_xe_rate_returns d w) as (r & w1 & S & D & C & R & _).
    destruct (IH (results ++ [r])%list w1) as (fetched & w' & F & Dm & Cm & Rm).
    exists (r :: fetched), w'.
    cbn [for_date]. rewrite (bind_Return _ _ _ _ _ S), F.
    split; [now rewrite <- app_assoc|].
    split; [simpl; congruence|].
    split.
    + rewrite Cm, C. cbn [List.length]. lia.
    + rewrite Rm, R. simpl. now rewrite <- app_assoc.
Qed.

(** The route on a valid range that ends before 9999-12-31: one result
    per calendar day from the start to the end inclusive, in ascending
    order, each obtained by one call of the fetcher for that day. *)
Lemma scrape_rates_valid_range (data : RangeRequest) (w : World) (first last : datetime) :
  strptime_json (start_date data) = Return first ->
  strptime_json (end_date data) = Return last ->
  first <= last -> last - first <= 90 -> last < MAXORDINAL ->
  exists (results : list FetchResult) (w' : World),
    scrape_rates data w
    = (Return (Ok results (List.length results)
                 (List.length (filter is_success results))), w')
    /\ Z.of_nat (List.length results) = last - first + 1
    /\ map date results = map strftime (days_from first (Z.to_nat (last - first + 1)))
    /\ request_count (limiter w') = request_count (limiter w) + (last - first + 1)
    /\ requested (log w')
       = (requested (log w)
          ++ map url_for (map strftime (days_from first (Z.to_nat (last - first + 1)))))%list.
Proof.
  intros S1 S2 L D U.
  destruct (strptime_json_returns _ _ S1) as (s1 & _ & P1 & F1).
  destruct (strptime_json_returns _ _ S2) as (s2 & _ & _ & F2).
  pose proof (strptime_positive _ _ P1) as P.
  rewrite scrape_rates_unfold, F1, F2, S1, S2. cbn [orb].
  destruct (last <? first) eqn:E1; [lia|].
  unfold days_between. destruct (90 <? last - first) eqn:E2; [lia|].
  rewrite get_date_range_days by assumption.
  set (dates := map strftime (days_from first (Z.to_nat (last - first + 1)))).
  destruct (for_date_spec dates [] w) as (results & w' & R & Dm & Cm & Rm).
  exists results, w'. rewrite R.
  split; [reflexivity|].
  assert (Len : List.length results = Z.to_nat (last - first + 1)).
  { rewrite <- (length_map date), Dm. unfold dates.
    now rewrite length_map, days_from_length. }
  split; [rewrite Len; lia|].
  split; [exact Dm|].
  split; [|exact Rm].
  rewrite Cm. unfold dates. rewrite length_map, days_from_length. lia.
Qed.

(** Every valid range that ends on 9999-12-31 makes the route raise
    [OverflowError] before anything is fetched. *)
Lemma scrape_rates_last_day (data : RangeRequest) (w : World) (first : datetime) :
  strptime_json (start_date data) = Return first ->
  strptime_json (end_date data) = Return MAXORDINAL ->
  first <= MAXORDINAL -> MAXORDINAL - first <= 90 ->
  scrape_rates data w = (Raise (Exn OverflowError "date value out of range"), w).
Proof.
  intros S1 S2 L D.
  destruct (strptime_json_returns _ _ S1) as (s1 & _ & P1 & F1).
  destruct (strptime_json_returns _ _ S2) as (s2 & _ & _ & F2).
  pose proof (strptime_positive _ _ P1) as P.
  rewrite scrape_rates_unfold, F1, F2, S1, S2. cbn [orb].
  destruct (MAXORDINAL <? first) eqn:E1; [lia|].
  unfold days_between. destruct (90 <? MAXORDINAL - first) eqn:E2; [lia|].
  rewrite get_date_range_overflow by assumption.
  reflexivity.
Qed.

Example scrape_rates_five_days :
  exists (results : list FetchResult) (w' : World),
    scrape_rates
      {| start_date := JString "2024-02-27"; end_date := JString "2024-03-02" |}
      (serving page_with_rate)
    = (Return (Ok results 5 5), w')
    /\ map date results
       = ["2024-02-27"; "2024-02-28"; "2024-02-29"; "2024-03-01"; "2024-03-02"]
    /\ requested (log w') = map url_for (map date results)
    /\ request_count (limiter w') = 5.
Proof.
  eexists. eexists. split; [vm_compute; reflexivity|].
  repeat split; vm_compute; reflexivity.
Qed.

(* ================================================================== *)
(** * Further properties: dates and [get_date_range]                   *)
(* ================================================================== *)

(** X1.  [get_date_range] on any two dates with the end before
    9999-12-31: the texts [strftime] writes for the days from start to
    end (the year without padding, so ['999-12-31'] before the year
    1000), one per day in ascending order, and the empty list when the
    start is after the end. *)
Theorem get_date_range_list (first last : datetime) :
  0 < first -> last < MAXORDINAL ->
  get_date_range first last
  = Return (map strftime (days_from first (Z.to_nat (last - first + 1))))
  /\ (last < first -> get_date_range first last = Return []).
Proof.
  intros P U.
  assert (E : last < first -> get_date_range first last = Return []).
  { intros L. unfold get_date_range. now apply while_current_done. }
  split; [|exact E].
  destruct (Z_lt_le_dec last first) as [L|L].
  - rewrite (E L). replace (Z.to_nat (last - first + 1)) with O by lia. reflexivity.
  - now apply get_date_range_days.
Qed.

Lemma get_date_range_list_witness :
  get_date_range 738943 738947
  = Return ["2024-02-27"; "2024-02-28"; "2024-02-29"; "2024-03-01"; "2024-03-02"]
  /\ get_date_range 738947 738943 = Return []
  /\ get_date_range 364877 364878 = Return ["999-12-31"; "1000-01-01"].
Proof.
  split; [|split].
  - rewrite (proj1 (get_date_range_list 738943 738947 eq_refl eq_refl)).
    vm_compute. reflexivity.
  - apply (proj2 (get_date_range_list 738947 738943 eq_refl eq_refl)). reflexivity.
  - rewrite (proj1 (get_date_range_list 364877 364878 eq_refl eq_refl)).
    vm_compute. reflexivity.
Defined.

(** The last day of a month is at most the last day of its year. *)
Lemma month_end_in_year (y m : Z) :
  1 <= m <= 12 ->
  days_before_month y m + days_in_month y m <= 365 + (if is_leap y then 1 else 0).
Proof.
  intros H.
  assert (C : m = 1 \/ m = 2 \/ m = 3 \/ m = 4 \/ m = 5 \/ m = 6 \/ m = 7 \/ m = 8
              \/ m = 9 \/ m = 10 \/ m = 11 \/ m = 12) by lia.
  unfold days_before_month, days_in_month.
  destruct (is_leap y);
    repeat (destruct C as [->|C]; [vm_compute; discriminate|]);
    subst; vm_compute; discriminate.
Qed.

Lemma ymd2ord_le_MAXORDINAL (y m d : Z) :
  1 <= y <= 9999 -> 1 <= m <= 12 -> d <= days_in_month y m ->
  ymd2ord y m d <= MAXORDINAL.
Proof.
  intros Y M D. pose proof (month_end_in_year y m M) as E.
  unfold ymd2ord.
  assert (B : days_before_year y + 365 + (if is_leap y then 1 else 0) <= MAXORDINAL).
  { destruct (Z.eq_dec y 9999) as [->|N].
    - vm_compute. discriminate.
    - assert (L : (if is_leap y then 1 else 0) <= 1) by (destruct (is_leap y); lia).
      unfold days_before_year, MAXORDINAL. cbv zeta.
      Z.div_mod_to_equations. lia. }
  lia.
Qed.

(** A date that [strptime] returns is a day of the calendar, 0001-01-01
    to 9999-12-31. *)
Lemma strptime_in_calendar (s : string) (d : datetime) :
  strptime s = Return d -> 0 < d <= MAXORDINAL.
Proof.
  intros H. split; [now apply (strptime_positive s)|].
  revert H. unfold strptime.
  destruct (match_Ymd s) as [[[[y m] dd] r]|] eqn:E; [|discriminate].
  destruct r; [|discriminate].
  destruct (y <? MINYEAR) eqn:Y; [discriminate|].
  destruct (days_in_month y m <? dd) eqn:D; [discriminate|].
  intros [= <-].
  destruct (match_Ymd_bounds _ _ _ _ _ E) as (By & Bm & Bd).
  unfold MINYEAR in Y. apply ymd2ord_le_MAXORDINAL; lia.
Qed.

(* ================================================================== *)
(** * Further properties: the [/api/scrape] route                      *)
(* ================================================================== *)

(** Past the validation the route is [get_date_range] followed by the
    loop over its dates. *)
Lemma scrape_rates_validated (data : RangeRequest) (w : World) (first last : datetime) :
  strptime_json (start_date data) = Return first ->
  strptime_json (end_date data) = Return last ->
  first <= last -> last - first <= 90 ->
  scrape_rates data w =
  match get_date_range first last with
  | Return dates =>
      match for_date dates [] w with
      | (Return results, w') =>
          (Return (Ok results (List.length results)
                     (List.length (filter is_success results))), w')
      | (Raise e, w') => (Raise e, w')
      end
  | Raise e => (Raise e, w)
  end.
Proof.
  intros S1 S2 L D.
  destruct (strptime_json_returns _ _ S1) as (s1 & _ & _ & F1).
  destruct (strptime_json_returns _ _ S2) as (s2 & _ & _ & F2).
  rewrite scrape_rates_unfold, F1, F2, S1, S2. cbn [orb].
  destruct (last <? first) eqn:E1; [lia|].
  unfold days_between. destruct (90 <? last - first) eqn:E2; [lia|].
  reflexivity.
Qed.

Lemma strptime_json_in_calendar (v : json) (d : datetime) :
  strptime_json v = Return d -> 0 < d <= MAXORDINAL.
Proof.
  intros H. destruct (strptime_json_returns _ _ H) as (s & _ & P & _).
  now apply (strptime_in_calendar s).
Qed.

(** X2.  Every range request that passes the validation and ends on
    9999-12-31 makes the route raise [OverflowError], whatever its
    start, with nothing fetched and the limiter not called. *)
Theorem range_ending_on_last_day_raises
  (data : RangeRequest) (w : World) (first : datetime) :
  strptime_json (start_date data) = Return first ->
  end_date data = JString "9999-12-31" ->
  MAXORDINAL - first <= 90 ->
  scrape_rates data w = (Raise (Exn OverflowError "date value out of range"), w).
Proof.
  intros S1 E D.
  assert (S2 : strptime_json (end_date data) = Return MAXORDINAL)
    by (rewrite E; vm_compute; reflexivity).
  destruct (strptime_json_in_calendar _ _ S1) as [P U].
  rewrite (scrape_rates_validated data w first MAXORDINAL); try assumption.
  now rewrite get_date_range_overflow.
Qed.

Lemma range_ending_on_last_day_raises_witness :
  scrape_rates
    {| start_date := JString "9999-10-15"; end_date := JString "9999-12-31" |}
    (serving page_with_rate)
  = (Raise (Exn OverflowError "date value out of range"), serving page_with_rate).
Proof.
  apply (range_ending_on_last_day_raises _ _ (MAXORDINAL - 77)).
  - vm_compute. reflexivity.
  - reflexivity.
  - vm_compute. discriminate.
Defined.

(** X3.  For dates that are absent, [null] or strings the route raises
    in no other case: when it raises, the exception is that
    [OverflowError], the end date is 9999-12-31, and the world is as it
    was.  Every other such request gets a reply. *)
Theorem range_route_raises_only_overflow
  (data : RangeRequest) (w w' : World) (e : exn) :
  textual (start_date data) = true -> textual (end_date data) = true ->
  scrape_rates data w = (Raise e, w') ->
  e = Exn OverflowError "date value out of range"
  /\ w' = w
  /\ strptime_json (end_date data) = Return MAXORDINAL.
Proof.
  intros T1 T2 H.
  rewrite scrape_rates_unfold in H.
  destruct (json_falsy (start_date data) || json_falsy (end_date data)) eqn:F;
    [discriminate H|].
  apply orb_false_iff in F. destruct F as [F1 F2].
  cbv zeta in H.
  destruct (strptime_json (start_date data)) as [first|e1] eqn:S1.
  2:{ rewrite (strptime_json_raises _ _ S1) in H.
      destruct (start_date data);
        try discriminate T1; try discriminate F1; discriminate H. }
  destruct (strptime_json (end_date data)) as [last|e2] eqn:S2.
  2:{ rewrite (strptime_json_raises _ _ S2) in H.
      destruct (end_date data);
        try discriminate T2; try discriminate F2; discriminate H. }
  destruct (last <? first) eqn:E1; [discriminate|].
  unfold days_between in H.
  destruct (90 <? last - first) eqn:E2; [discriminate|].
  destruct (strptime_json_in_calendar _ _ S1) as [P _].
  destruct (strptime_json_in_calendar _ _ S2) as [_ U].
  destruct (Z.eq_dec last MAXORDINAL) as [->|N].
  - rewrite get_date_range_overflow in H by (try assumption; lia).
    injection H as <- <-. auto.
  - rewrite get_date_range_days in H by lia.
    destruct (for_date_spec
                (map strftime (days_from first (Z.to_nat (last - first + 1)))) [] w)
      as (results & w1 & R & _).
    rewrite R in H. discriminate.
Qed.

Lemma range_route_raises_only_overflow_witness :
  Exn OverflowError "date value out of range"
  = Exn OverflowError "date value out of range"
  /\ serving page_with_rate = serving page_with_rate
  /\ strptime_json (JString "9999-12-31") = Return MAXORDINAL.
Proof.
  apply (range_route_raises_only_overflow
           {| start_date := JString "9999-12-01"; end_date := JString "9999-12-31" |}
           (serving page_with_rate)).
  - reflexivity.
  - reflexivity.
  - vm_compute. reflexivity.
Defined.

(* ================================================================== *)
(** * Further properties: the pacing controller's sleeps               *)
(* ================================================================== *)

(** Lines 44-50 on the trace: one sleep for what is left of the delay
    when less than the delay has elapsed, and no event otherwise. *)
Lemma hold_back_log (delay : Q) (w : World) :
  let elapsed := qsub (clock (tick w)) (last_request_time (limiter w)) in
  log (snd (hold_back delay w))
  = if Qltb elapsed delay then Slept (qsub delay elapsed) :: log w else log w.
Proof.
  cbv zeta. unfold hold_back. rewrite bind_time_time, bind_get_world.
  rewrite tick_limiter.
  destruct (Qltb (qsub (clock (tick w)) (last_request_time (limiter w))) delay) eqn:E.
  - apply Qltb_true in E. rewrite qsub_correct in E.
    assert (P : (0 <= qsub delay (qsub (clock (tick w)) (last_request_time (limiter w))))%Q).
    { rewrite !qsub_correct. lra. }
    rewrite (bind_Return _ _ _ _ _ (time_sleep_spec _ (tick w) P)).
    rewrite bind_time_time. reflexivity.
  - rewrite bind_ret, bind_time_time. reflexivity.
Qed.

(** The trace of one call of [wait]: what [hold_back] adds, for the
    delay chosen. *)
Lemma wait_log (w : World) :
  exists (delay : Q) (w' : World) (now : Q),
    wait rate_limiter w = (Return delay, w')
    /\ (clock w <= now)%Q
    /\ (delay < 25)%Q
    /\ log w'
       = if Qltb (qsub now (last_request_time (limiter w))) delay
         then Slept (qsub delay (qsub now (last_request_time (limiter w)))) :: log w
         else log w.
Proof.
  unfold wait. rewrite bind_modify, bind_get_world.
  cbn [limiter set_limiter request_count set_request_count].
  set (w1 := set_limiter _ w).
  destruct (choose_delay_spec (request_count (limiter w) + 1) w1) as (delay & C & D).
  rewrite (bind_Return _ _ _ _ _ C).
  pose proof (hold_back_log delay (advance w1)) as L. cbv zeta in L.
  destruct (hold_back_spec delay (advance w1)) as (w' & H & _).
  rewrite H in L. cbn [snd] in L.
  rewrite (bind_Return _ _ _ _ _ H). unfold ret.
  exists delay, w', (clock (tick (advance w1))).
  split; [reflexivity|]. split; [|split].
  - apply (tick_clock (advance w1)).
  - pose proof (unit_draw_range w1) as [U0 U1].
    destruct ((request_count (limiter w) + 1) mod 5 =? 0); lra.
  - exact L.
Qed.

Lemma wait_trace (w : World) :
  exists (delay : Q) (w' : World),
    wait rate_limiter w = (Return delay, w')
    /\ (log w' = log w \/ exists secs : Q, log w' = Slept secs :: log w).
Proof.
  destruct (wait_log w) as (delay & w' & now & W & _ & _ & L).
  exists delay, w'. split; [exact W|].
  destruct (Qltb (qsub now (last_request_time (limiter w))) delay);
    [right; eexists; exact L|now left].
Qed.

(** X4.  A call of [wait] sleeps at most once and sends nothing: the
    trace is unchanged, or has gained one sleep, of a positive length
    that is no more than the delay returned less the time already
    elapsed since the last request. *)
Theorem wait_sleeps_at_most_once (w : World) :
  exists (delay : Q) (w' : World),
    wait rate_limiter w = (Return delay, w')
    /\ (log w' = log w
        \/ exists secs : Q,
             log w' = Slept secs :: log w
             /\ (0 < secs)%Q
             /\ (secs <= delay - (clock w - last_request_time (limiter w)))%Q).
Proof.
  destruct (wait_log w) as (delay & w' & now & W & N & _ & L).
  exists delay, w'. split; [exact W|].
  destruct (Qltb (qsub now (last_request_time (limiter w))) delay) eqn:E.
  - right. eexists. split; [exact L|].
    apply Qltb_true in E. rewrite qsub_correct in E.
    rewrite !qsub_correct. split; lra.
  - now left.
Qed.

(** X5.  When 25 seconds or more have passed since the last request
    (as on the first call after start-up, the recorded time being 0),
    [wait] returns without sleeping. *)
Theorem wait_without_sleep (w : World) :
  (25 <= clock w - last_request_time (limiter w))%Q ->
  exists (delay : Q) (w' : World),
    wait rate_limiter w = (Return delay, w') /\ log w' = log w.
Proof.
  intros H.
  destruct (wait_log w) as (delay & w' & now & W & N & D & L).
  exists delay, w'. split; [exact W|].
  rewrite Qltb_ge in L; [exact L|].
  rewrite qsub_correct. lra.
Qed.

Lemma wait_without_sleep_witness :
  exists (delay : Q) (w' : World),
    wait rate_limiter (serving page_with_rate) = (Return delay, w')
    /\ log w' = log (serving page_with_rate).
Proof.
  apply wait_without_sleep. vm_compute. discriminate.
Defined.

(* ================================================================== *)
(** * Further properties: the request of the single-date fetcher       *)
(* ================================================================== *)

Lemma choice_in_pool (n : N) : In (nth (N.to_nat (n mod 5)) user_agents EmptyString) user_agents.
Proof.
  apply nth_In. change (List.length user_agents) with 5%nat.
  pose proof (N.mod_lt n 5). lia.
Qed.

(** X6.  [get_headers] always returns eleven headers: a [User-Agent]
    that is one of the five of the pool (never the empty default), then
    the ten fixed headers in their order; it consumes one random draw
    and does nothing else. *)
Theorem get_headers_from_pool (w : World) :
  exists ua : string,
    In ua user_agents
    /\ get_headers w = (Return (("User-Agent", ua) :: fixed_headers), advance w).
Proof.
  exists (nth (N.to_nat (oracle w (cursor w) mod 5)) user_agents EmptyString).
  split; [apply choice_in_pool|].
  unfold get_headers, random_choice. run. reflexivity.
Qed.

(** What a fetch does to the world, whatever its outcome: one request
    with the headers of [get_headers] and the timeout 30. *)
Lemma fetch_page_sends (url : string) (w : World) :
  exists ua : string,
    In ua user_agents
    /\ snd (fetch_page url w)
       = tick (advance (add_event
                          (Requested url (("User-Agent", ua) :: fixed_headers) 30)
                          (advance w))).
Proof.
  exists (nth (N.to_nat (oracle w (cursor w) mod 5)) user_agents EmptyString).
  split; [apply choice_in_pool|].
  unfold fetch_page, get_headers, random_choice, session_get.
  run.
  match goal with
  | |- context [network ?a ?b ?c ?d] => destruct (network a b c d) as [e|response]
  end.
  - run. reflexivity.
  - run. unfold raise_for_status.
    destruct ((400 <=? status_code response) && (status_code response <? 500));
      [run; reflexivity|].
    destruct ((500 <=? status_code response) && (status_code response <? 600));
      [run; reflexivity|].
    run. unfold BeautifulSoup. run.
    match goal with
    | |- context [html_parser ?a ?b] => destruct (html_parser a b)
    end; reflexivity.
Qed.

(** X7.  Whatever the transport and the parser do, one call of the
    single-date fetcher sends exactly one request, after the wait and
    as its last event: to the fixed base followed by the date string as
    given, with the timeout 30, a [User-Agent] of the pool and the ten
    fixed headers.  Before it the trace has gained at most one sleep. *)
Theorem fetch_sends_one_request (date_str : string) (w : World) :
  exists (r : FetchResult) (w' : World) (ua : string) (before : list event),
    scrape_xe_rate date_str w = (Return r, w')
    /\ log w'
       = Requested ("https://www.xe.com/currencytables/?from=USD&date=" ++ date_str)
           (("User-Agent", ua) :: fixed_headers) 30 :: before
    /\ In ua user_agents
    /\ (before = log w \/ exists secs : Q, before = Slept secs :: log w).
Proof.
  destruct (wait_trace w) as (delay & w1 & W & L).
  rewrite (scrape_xe_rate_after_wait date_str w w1 delay W).
  destruct (fetch_page_sends (url_for date_str) w1) as (ua & I & F).
  destruct (fetch_page (url_for date_str) w1) as [[page|e] w2]; cbn [snd] in F;
    subst w2; eexists; eexists; exists ua, (log w1);
    (split; [reflexivity|]); (split; [reflexivity|]); (split; [exact I|exact L]).
Qed.

(* ================================================================== *)
(** * Further properties: HTTP status codes                            *)
(* ================================================================== *)

(** X8.  Only the status codes 400 to 599 are failures.  When the
    transport returns a response, the result is an error carrying the
    [HTTPError] message ("<code> Client Error: ..." for 4xx, "<code>
    Server Error: ..." for 5xx) and the parser is not consulted; for any
    other code, 1xx and 3xx included, the body is parsed and the result
    is that of the extractor, or a parsing error. *)
Theorem only_4xx_5xx_are_failures (date_str : string) (w : World) (response : Response) :
  (forall headers n, network w (url_for date_str) headers n = inr response) ->
  exists w' : World,
    scrape_xe_rate date_str w =
    (Return
       (let code := status_code response in
        let http_error (kind : string) :=
          {| date := date_str; rate := None; status := error_status;
             error := Some (str_of_Z code ++ " " ++ kind ++ " Error: " ++ reason response
                              ++ " for url: " ++ url_of response) |} in
        if (400 <=? code) && (code <? 500) then http_error "Client"
        else if (500 <=? code) && (code <? 600) then http_error "Server"
        else
          match html_parser w (text response) with
          | inl e =>
              {| date := date_str; rate := None; status := error_status;
                 error := Some (error_message e) |}
          | inr page => result_of date_str (extract_rate page)
          end), w').
Proof.
  intros H.
  destruct (wait_spec w) as (delay & w1 & W & _ & _ & _ & _ & _ & O1 & O2 & O3 & _).
  rewrite (scrape_xe_rate_after_wait date_str w w1 delay W).
  destruct (fetch_page_outcome (url_for date_str) w1) as (headers & F).
  rewrite O2, O3, H in F. cbv zeta in F. cbv zeta.
  destruct (fetch_page (url_for date_str) w1) as [o w2]. cbn [fst] in F. subst o.
  exists w2.
  destruct ((400 <=? status_code response) && (status_code response <? 500));
    [reflexivity|].
  destruct ((500 <=? status_code response) && (status_code response <? 600));
    [reflexivity|].
  now destruct (html_parser w (text response)).
Qed.

Lemma only_4xx_5xx_are_failures_witness :
  (exists w' : World,
      scrape_xe_rate "2024-03-01"
        (answering {| status_code := 404; reason := "Not Found";
                      url_of := url_for "2024-03-01"; text := "<html>" |}
           page_with_rate)
      = (Return {| date := "2024-03-01"; rate := None; status := error_status;
                   error := Some "404 Client Error: Not Found for url: https://www.xe.com/currencytables/?from=USD&date=2024-03-01" |},
         w'))
  /\ (exists w' : World,
         scrape_xe_rate "2024-03-01"
           (answering {| status_code := 304; reason := "Not Modified";
                         url_of := url_for "2024-03-01"; text := "<html>" |}
              page_with_rate)
         = (Return {| date := "2024-03-01"; rate := Some f_1_3612; status := success;
                      error := None |}, w')).
Proof.
  split.
  - exact (only_4xx_5xx_are_failures "2024-03-01"
             (answering {| status_code := 404; reason := "Not Found";
                           url_of := url_for "2024-03-01"; text := "<html>" |}
                page_with_rate)
             _ (fun _ _ => eq_refl)).
  - exact (only_4xx_5xx_are_failures "2024-03-01"
             (answering {| status_code := 304; reason := "Not Modified";
                           url_of := url_for "2024-03-01"; text := "<html>" |}
                page_with_rate)
             _ (fun _ _ => eq_refl)).
Defined.

(* ================================================================== *)
(** * Further properties: the results of a range                       *)
(* ================================================================== *)

Lemma result_of_well_formed (date_str : string) (page : soup) :
  well_formed (result_of date_str (extract_rate page)).
Proof.
  pose proof (extract_rate_plausible page) as P.
  pose proof (result_of_hit date_str page) as H.
  destruct (extract_rate page) as [v|].
  - rewrite (H v eq_refl). unfold well_formed. cbn [rate status error].
    split; [|reflexivity]. exists v. split; [reflexivity|now apply P].
  - rewrite (result_of_miss date_str None eq_refl). unfold well_formed.
    cbn [rate status error]. split; [reflexivity|discriminate].
Qed.

Lemma error_result_well_formed (date_str : string) (e : exn) :
  well_formed (error_result date_str e).
Proof. unfold well_formed, error_result. cbn. split; [reflexivity|discriminate]. Qed.

Lemma well_formed_success (r : FetchResult) : well_formed r -> is_success r = has_rate r.
Proof.
  unfold well_formed, is_success, has_rate.
  destruct (status r).
  - now intros [(v & -> & _) _].
  - now intros [-> _].
  - now intros [-> _].
Qed.

Lemma filter_success_has_rate (results : list FetchResult) :
  Forall well_formed results -> filter is_success results = filter has_rate results.
Proof.
  induction 1 as [|r results W _ IH]; [reflexivity|].
  simpl. now rewrite (well_formed_success r W), IH.
Qed.

Lemma fetch_page_clock (url : string) (w : World) :
  (clock w <= clock (snd (fetch_page url w)))%Q.
Proof.
  destruct (fetch_page_world url w) as (headers & E). rewrite E.
  eapply Qle_trans; [|apply tick_clock]. cbn. apply Qle_refl.
Qed.

(** One call of the fetcher, with its pacing: the result is well
    formed, and the time recorded by the limiter is at least 2.5 s after
    the one recorded before, no earlier than the call and no later than
    the return. *)
Lemma scrape_xe_rate_paced (date_str : string) (w : World) :
  exists (r : FetchResult) (w' : World),
    scrape_xe_rate date_str w = (Return r, w')
    /\ date r = date_str
    /\ well_formed r
    /\ request_count (limiter w') = request_count (limiter w) + 1
    /\ requested (log w') = (requested (log w) ++ [url_for date_str])%list
    /\ (5 # 2 <= last_request_time (limiter w') - last_request_time (limiter w))%Q
    /\ (clock w <= last_request_time (limiter w'))%Q
    /\ (last_request_time (limiter w') <= clock w')%Q.
Proof.
  destruct (wait_spec w) as (delay & w1 & W & C & L & S & D & K & O1 & O2 & O3 & O4).
  rewrite (scrape_xe_rate_after_wait date_str w w1 delay W).
  pose proof (fetch_page_frame (url_for date_str) w1) as F. cbv zeta in F.
  pose proof (fetch_page_clock (url_for date_str) w1) as T.
  pose proof (unit_draw_range w) as [U0 U1].
  assert (B : (5 # 2 <= delay)%Q)
    by (destruct ((request_count (limiter w) + 1) mod 5 =? 0); lra).
  destruct (fetch_page (url_for date_str) w1) as [[page|e] w2]; cbn [snd] in F, T;
    destruct F as (F1 & F2 & _);
    eexists; eexists; (split; [reflexivity|]); rewrite F1, F2, O4, C, L;
    (split; [|split; [|split; [reflexivity|split; [reflexivity|]]]]).
  - unfold result_of. now destruct (truthy _).
  - apply result_of_well_formed.
  - rewrite L in S. repeat split; lra.
  - reflexivity.
  - apply error_result_well_formed.
  - rewrite L in S. repeat split; lra.
Qed.

Lemma inject_Z_of_nat_S (n : nat) :
  (inject_Z (Z.of_nat (S n)) == inject_Z (Z.of_nat n) + 1)%Q.
Proof. rewrite Nat2Z.inj_succ. unfold Z.succ. now rewrite inject_Z_plus. Qed.

(** The loop over the dates, with everything it keeps: one well-formed
    result per date in order, one request per date in order, and at
    least 2.5 s recorded between consecutive requests. *)
Lemma for_date_full (dates : list string) :
  forall (results : list FetchResult) (w : World),
    exists (fetched : list FetchResult) (w' : World),
      for_date dates results w = (Return (results ++ fetched)%list, w')
      /\ map date fetched = dates
      /\ Forall well_formed fetched
      /\ request_count (limiter w')
         = request_count (limiter w) + Z.of_nat (List.length dates)
      /\ requested (log w') = (requested (log w) ++ map url_for dates)%list
      /\ ((5 # 2) * inject_Z (Z.of_nat (List.length dates))
          <= last_request_time (limiter w') - last_request_time (limiter w))%Q
      /\ ((last_request_time (limiter w) <= clock w)%Q ->
          (last_request_time (limiter w') <= clock w')%Q)
      /\ (dates <> [] ->
          (clock w + (5 # 2) * (inject_Z (Z.of_nat (List.length dates)) - 1)
           <= last_request_time (limiter w'))%Q
          /\ (last_request_time (limiter w') <= clock w')%Q).
Proof.
  induction dates as [|d dates IH]; intros results w.
  - exists [], w. simpl. rewrite !app_nil_r.
    split; [reflexivity|]. split; [reflexivity|]. split; [constructor|].
    split; [lia|]. split; [reflexivity|].
    split; [change (inject_Z 0) with 0%Q; lra|].
    split; [auto|]. intros N. now elim N.
  - destruct (scrape_xe_rate_paced d w) as (r & w1 & S & D & Wf & C & R & P1 & P2 & P3).
    destruct (IH (results ++ [r])%list w1)
      as (fetched & w' & F & Dm & Wm & Cm & Rm & Pm & Im & _).
    exists (r :: fetched), w'.
    cbn [for_date]. rewrite (bind_Return _ _ _ _ _ S), F.
    pose proof (inject_Z_of_nat_S (List.length dates)) as N.
    cbn [List.length].
    split; [now rewrite <- app_assoc|].
    split; [simpl; congruence|].
    split; [now constructor|].
    split; [rewrite Cm, C; lia|].
    split; [rewrite Rm, R; simpl; now rewrite <- app_assoc|].
    split; [rewrite N; lra|].
    split; [intros _; now apply Im|].
    intros _. split; [rewrite N; lra|now apply Im].
Qed.

(** X9.  On a valid range that ends before 9999-12-31 the route
    returns, whatever the transport and the parser do (a failing date
    does not abort the range): exactly (end - start + 1) results, one
    per calendar day in ascending order, after one request per day in
    the same order and as many calls of the limiter.  The date of a
    result and of its request is the text [strftime] writes for the
    day. *)
Theorem range_one_result_per_day
  (data : RangeRequest) (w : World) (first last : datetime) :
  strptime_json (start_date data) = Return first ->
  strptime_json (end_date data) = Return last ->
  first <= last -> last - first <= 90 -> last < MAXORDINAL ->
  let days := days_from first (Z.to_nat (last - first + 1)) in
  exists (results : list FetchResult) (total successful : nat) (w' : World),
    scrape_rates data w = (Return (Ok results total successful), w')
    /\ Z.of_nat (List.length results) = last - first + 1
    /\ map date results = map strftime days
    /\ requested (log w') = (requested (log w) ++ map url_for (map strftime days))%list
    /\ request_count (limiter w') = request_count (limiter w) + (last - first + 1).
Proof.
  intros S1 S2 L D U days.
  destruct (strptime_json_in_calendar _ _ S1) as [P _].
  rewrite (scrape_rates_validated data w first last) by assumption.
  rewrite get_date_range_days by assumption. fold days.
  destruct (for_date_full (map strftime days) [] w)
    as (results & w' & R & Dm & _ & Cm & Rm & _).
  rewrite R. cbn [app].
  exists results, (List.length results), (List.length (filter is_success results)), w'.
  split; [reflexivity|].
  assert (Len : List.length results = Z.to_nat (last - first + 1)).
  { rewrite <- (length_map date), Dm. unfold days.
    now rewrite length_map, days_from_length. }
  split; [rewrite Len; lia|].
  split; [exact Dm|].
  split; [exact Rm|].
  rewrite Cm. unfold days. rewrite length_map, days_from_length. lia.
Qed.

Lemma range_one_result_per_day_witness :
  (exists (results : list FetchResult) (total successful : nat) (w' : World),
      scrape_rates
        {| start_date := JString "2024-02-27"; end_date := JString "2024-03-02" |}
        (failing (Exn Timeout "read timed out"))
      = (Return (Ok results total successful), w')
      /\ Z.of_nat (List.length results) = 5
      /\ map date results
         = ["2024-02-27"; "2024-02-28"; "2024-02-29"; "2024-03-01"; "2024-03-02"]
      /\ requested (log w')
         = map url_for
             ["2024-02-27"; "2024-02-28"; "2024-02-29"; "2024-03-01"; "2024-03-02"]
      /\ request_count (limiter w') = 5)
  /\ (exists (results : list FetchResult) (total successful : nat) (w' : World),
         scrape_rates
           {| start_date := JString "0999-12-31"; end_date := JString "1000-01-01" |}
           (serving page_with_rate)
         = (Return (Ok results total successful), w')
         /\ Z.of_nat (List.length results) = 2
         /\ map date results = ["999-12-31"; "1000-01-01"]
         /\ requested (log w') = map url_for ["999-12-31"; "1000-01-01"]
         /\ request_count (limiter w') = 2).
Proof.
  split.
  - exact (range_one_result_per_day
             {| start_date := JString "2024-02-27"; end_date := JString "2024-03-02" |}
             (failing (Exn Timeout "read timed out")) 738943 738947
             eq_refl eq_refl
             ltac:(vm_compute; discriminate) ltac:(vm_compute; discriminate) eq_refl).
  - exact (range_one_result_per_day
             {| start_date := JString "0999-12-31"; end_date := JString "1000-01-01" |}
             (serving page_with_rate) 364877 364878
             eq_refl eq_refl
             ltac:(vm_compute; discriminate) ltac:(vm_compute; discriminate) eq_refl).
Defined.

(** The route answers 400 with the world as it was, or raises the
    [TypeError] of a date that is not a string with the world as it
    was, or has a range that passed the four checks. *)
Lemma scrape_rates_cases (data : RangeRequest) (w : World) :
  (exists msg : string, scrape_rates data w = (Return (BadRequest msg), w))
  \/ (exists e : exn, scrape_rates data w = (Raise e, w) /\ class_of e = TypeError)
  \/ (exists first last : datetime,
         strptime_json (start_date data) = Return first
         /\ strptime_json (end_date data) = Return last
         /\ first <= last /\ last - first <= 90).
Proof.
  rewrite scrape_rates_unfold.
  destruct (json_falsy (start_date data) || json_falsy (end_date data));
    [left; eexists; reflexivity|].
  cbv zeta.
  destruct (strptime_json (start_date data)) as [first|e1] eqn:S1.
  2:{ rewrite (strptime_json_raises _ _ S1).
      destruct (start_date data); cbn [strptime_json] in S1;
        try (injection S1 as <-; right; left; eexists; split; reflexivity).
      left. eexists. reflexivity. }
  destruct (strptime_json (end_date data)) as [last|e2] eqn:S2.
  2:{ rewrite (strptime_json_raises _ _ S2).
      destruct (end_date data); cbn [strptime_json] in S2;
        try (injection S2 as <-; right; left; eexists; split; reflexivity).
      left. eexists. reflexivity. }
  destruct (last <? first) eqn:E1; [left; eexists; reflexivity|].
  unfold days_between.
  destruct (90 <? last - first) eqn:E2; [left; eexists; reflexivity|].
  right. right. exists first, last. repeat split; lia.
Qed.

(** X10.  Whenever the route answers with results, [total] is their
    number, [successful] is the number of results that carry a rate
    (and so is at most [total]), and every result is well formed: a
    plausible rate and no error text for a success, no rate and an
    error text otherwise. *)
Theorem range_reply_counts
  (data : RangeRequest) (w w' : World) (results : list FetchResult)
  (total successful : nat) :
  scrape_rates data w = (Return (Ok results total successful), w') ->
  total = List.length results
  /\ successful = List.length (filter has_rate results)
  /\ (successful <= total)%nat
  /\ Forall well_formed results.
Proof.
  intros H.
  destruct (scrape_rates_cases data w)
    as [[msg B]|[(e & B & _)|(first & last & S1 & S2 & L & D)]];
    [rewrite B in H; discriminate|rewrite B in H; discriminate|].
  rewrite (scrape_rates_validated data w first last) in H by assumption.
  destruct (get_date_range first last) as [dates|e]; [|discriminate].
  destruct (for_date_full dates [] w) as (fetched & w1 & R & _ & Wf & _).
  rewrite R in H. cbn [app] in H. injection H as <- <- <- <-.
  rewrite <- (filter_success_has_rate fetched Wf).
  repeat split; try assumption. apply filter_length_le.
Qed.

Lemma range_reply_counts_witness :
  let miss date_str :=
    {| date := date_str; rate := None; status := not_found;
       error := Some "CAD rate not found in page" |} in
  let results := [miss "2024-03-01"; miss "2024-03-02"; miss "2024-03-03"] in
  3%nat = List.length results
  /\ 0%nat = List.length (filter has_rate results)
  /\ (0 <= 3)%nat
  /\ Forall well_formed results.
Proof.
  refine (range_reply_counts
            {| start_date := JString "2024-03-01"; end_date := JString "2024-03-03" |}
            (serving page_without_rate)
            (snd (scrape_rates
                    {| start_date := JString "2024-03-01";
                       end_date := JString "2024-03-03" |}
                    (serving page_without_rate)))
            [ {| date := "2024-03-01"; rate := None; status := not_found;
                 error := Some "CAD rate not found in page" |};
              {| date := "2024-03-02"; rate := None; status := not_found;
                 error := Some "CAD rate not found in page" |};
              {| date := "2024-03-03"; rate := None; status := not_found;
                 error := Some "CAD rate not found in page" |} ]
            3 0 _).
  vm_compute. reflexivity.
Defined.

(** X11.  A valid range of n days that ends before 9999-12-31 cannot be
    answered in less than 2.5 (n - 1) seconds: the clock has advanced by
    at least that much when the route returns, and the limiter's
    recorded time by at least 2.5 n seconds. *)
Theorem range_takes_time
  (data : RangeRequest) (w : World) (first last : datetime) :
  strptime_json (start_date data) = Return first ->
  strptime_json (end_date data) = Return last ->
  first <= last -> last - first <= 90 -> last < MAXORDINAL ->
  exists (answer : reply) (w' : World),
    scrape_rates data w = (Return answer, w')
    /\ ((5 # 2) * inject_Z (last - first) <= clock w' - clock w)%Q
    /\ ((5 # 2) * inject_Z (last - first + 1)
        <= last_request_time (limiter w') - last_request_time (limiter w))%Q.
Proof.
  intros S1 S2 L D U.
  destruct (strptime_json_in_calendar _ _ S1) as [P _].
  rewrite (scrape_rates_validated data w first last) by assumption.
  rewrite get_date_range_days by assumption.
  set (n := Z.to_nat (last - first + 1)).
  set (dates := map strftime (days_from first n)).
  assert (Len : Z.of_nat (List.length dates) = last - first + 1).
  { unfold dates. rewrite length_map, days_from_length. unfold n. lia. }
  assert (Ne : dates <> []).
  { intros E. rewrite E in Len. simpl in Len. lia. }
  destruct (for_date_full dates [] w) as (results & w' & R & _ & _ & _ & _ & Pm & _ & Nm).
  destruct (Nm Ne) as [N1 N2].
  rewrite R. eexists. eexists. split; [reflexivity|].
  rewrite Len in Pm, N1. split; [|exact Pm].
  assert (E : (inject_Z (last - first + 1) == inject_Z (last - first) + 1)%Q)
    by (now rewrite inject_Z_plus).
  rewrite E in N1. lra.
Qed.

Lemma range_takes_time_witness :
  exists (answer : reply) (w' : World),
    scrape_rates
      {| start_date := JString "2024-02-27"; end_date := JString "2024-03-02" |}
      (serving page_with_rate)
    = (Return answer, w')
    /\ ((5 # 2) * inject_Z (738947 - 738943)
        <= clock w' - clock (serving page_with_rate))%Q
    /\ ((5 # 2) * inject_Z (738947 - 738943 + 1)
        <= last_request_time (limiter w')
           - last_request_time (limiter (serving page_with_rate)))%Q.
Proof.
  exact (range_takes_time
           {| start_date := JString "2024-02-27"; end_date := JString "2024-03-02" |}
           (serving page_with_rate) 738943 738947
           eq_refl eq_refl
           ltac:(vm_compute; discriminate) ltac:(vm_compute; discriminate) eq_refl).
Defined.

(* ================================================================== *)
(** * Further properties: the [/api/scrape-single] route               *)
(* ================================================================== *)

(** Lines 271-274: the date parsed, or the [ValueError] caught. *)
Lemma parse_date (s : string) (w : World) :
  try_except
    (lift (strptime s) ;;; ret true)
    (fun e => if isinstance e ValueError then ret false else raise e) w
  = (Return match strptime s with
            | Return _ => true
            | Raise _ => false
            end, w).
Proof.
  unfold try_except, bind, lift, ret.
  destruct (strptime s) as [d|e] eqn:E; [reflexivity|].
  unfold isinstance. now rewrite (strptime_raises_ValueError s e E).
Qed.



(** X13.  A single-date request whose date [strptime] accepts is
    answered with the fetcher's result for the string as it was given
    (the parsed date is discarded): one call of the limiter, one
    request to the URL built from that string, and a well-formed result
    carrying it.  This holds for every date up to 9999-12-31. *)
Theorem single_route_fetches
  (data : SingleRequest) (w : World) (date_str : string) (d : datetime) :
  date_field data = Some date_str ->
  strptime date_str = Return d ->
  exists (r : FetchResult) (w' : World),
    scrape_single_rate data w = (Return (SingleResult r), w')
    /\ scrape_xe_rate date_str w = (Return r, w')
    /\ date r = date_str
    /\ well_formed r
    /\ requested (log w') = (requested (log w) ++ [url_for date_str])%list
    /\ request_count (limiter w') = request_count (limiter w) + 1.
Proof.
  intros E S. unfold scrape_single_rate. rewrite E.
  assert (F : falsy (Some date_str) = false).
  { destruct date_str; [vm_compute in S; discriminate|reflexivity]. }
  rewrite F. cbn [value_of].
  rewrite (bind_Return _ _ _ _ _ (parse_date _ w)). rewrite S.
  destruct (scrape_xe_rate_paced date_str w) as (r & w' & R & D & Wf & C & Q & _).
  exists r, w'. rewrite (bind_Return _ _ _ _ _ R). unfold ret.
  repeat split; assumption.
Qed.

Lemma single_route_fetches_witness :
  exists (r : FetchResult) (w' : World),
    scrape_single_rate {| date_field := Some "9999-12-31" |} (serving page_with_rate)
    = (Return (SingleResult r), w')
    /\ scrape_xe_rate "9999-12-31" (serving page_with_rate) = (Return r, w')
    /\ date r = "9999-12-31"
    /\ well_formed r
    /\ requested (log w')
       = (requested (log (serving page_with_rate)) ++ [url_for "9999-12-31"])%list
    /\ request_count (limiter w')
       = request_count (limiter (serving page_with_rate)) + 1.
Proof.
  apply (single_route_fetches _ _ "9999-12-31" MAXORDINAL).
  - reflexivity.
  - vm_compute. reflexivity.
Defined.

(** X14.  The single-date route never raises: every request, whatever
    its date and whatever the transport and the parser do, gets a 400
    answer or a result. *)
Theorem single_route_never_raises (data : SingleRequest) (w : World) :
  exists (answer : single_reply) (w' : World),
    scrape_single_rate data w = (Return answer, w').
Proof.
  unfold scrape_single_rate.
  destruct (falsy (date_field data)); [eexists; eexists; reflexivity|].
  rewrite (bind_Return _ _ _ _ _ (parse_date _ w)).
  destruct (strptime (value_of (date_field data))); [|eexists; eexists; reflexivity].
  destruct (scrape_xe_rate_returns (value_of (date_field data)) w) as (r & w' & R & _).
  rewrite (bind_Return _ _ _ _ _ R). eexists. eexists. reflexivity.
Qed.

(* ================================================================== *)
(** * Further properties: what a result depends on                     *)
(* ================================================================== *)

(** X15.  When the transport's answer depends on the URL alone (not on
    the user agent drawn or on the moment of the request), the result
    of the single-date fetcher depends on nothing but the date, the
    transport and the parser: not on the clock, the limiter's state, the
    random draws or what was requested before.  In particular repeated
    calls for a date give identical results. *)
Theorem result_depends_only_on_answer (date_str : string) (w1 w2 : World) :
  network w1 = network w2 -> html_parser w1 = html_parser w2 ->
  (forall url headers headers' n n',
      network w1 url headers n = network w1 url headers' n') ->
  fst (scrape_xe_rate date_str w1) = fst (scrape_xe_rate date_str w2).
Proof.
  intros N P D.
  destruct (wait_spec w1) as (d1 & v1 & W1 & _ & _ & _ & _ & _ & _ & A2 & A3 & _).
  destruct (wait_spec w2) as (d2 & v2 & W2 & _ & _ & _ & _ & _ & _ & B2 & B3 & _).
  rewrite (scrape_xe_rate_after_wait date_str w1 v1 d1 W1).
  rewrite (scrape_xe_rate_after_wait date_str w2 v2 d2 W2).
  destruct (fetch_page_outcome (url_for date_str) v1) as (h1 & F1).
  destruct (fetch_page_outcome (url_for date_str) v2) as (h2 & F2).
  rewrite A2, A3 in F1. rewrite B2, B3, <- N, <- P in F2.
  rewrite (D _ h2 h1 _ (oracle v1 (S (cursor v1)))) in F2. rewrite <- F1 in F2.
  destruct (fetch_page (url_for date_str) v1) as [o1 u1].
  destruct (fetch_page (url_for date_str) v2) as [o2 u2].
  cbn [fst] in F2. subst o2. now destruct o1.
Qed.

Lemma result_depends_only_on_answer_witness :
  fst (scrape_xe_rate "2024-03-01" (serving page_with_rate))
  = fst (scrape_xe_rate "2024-03-01"
           (snd (scrape_xe_rate "2024-03-01" (serving page_with_rate)))).
Proof.
  apply result_depends_only_on_answer.
  - vm_compute. reflexivity.
  - vm_compute. reflexivity.
  - intros url headers headers' n n'. reflexivity.
Defined.

(* ================================================================== *)
(** * Further properties: the decimal of the pattern fallback          *)
(* ================================================================== *)

Lemma span_isdigit (s : string) : all_chars isdigit (fst (span isdigit s)) = true.
Proof.
  induction s as [|c s IH]; [reflexivity|].
  simpl. destruct (isdigit c) eqn:D; [|reflexivity].
  destruct (span isdigit s) as [a b]. simpl in *. now rewrite D.
Qed.

(** What the group of a match looks like: digits, a point, digits. *)
Lemma decimal_after_shape (s g : string) :
  decimal_after s = Some g ->
  exists (c1 c2 : ascii) (d1 d2 : string),
    g = String c1 d1 ++ "." ++ String c2 d2
    /\ all_chars isdigit (String c1 d1) = true
    /\ all_chars isdigit (String c2 d2) = true.
Proof.
  unfold decimal_after.
  pose proof (span_isdigit (dropwhile not_digit s)) as D1.
  destruct (span isdigit (dropwhile not_digit s)) as [d1 r1]. cbn [fst] in D1.
  destruct d1 as [|c1 d1]; [discriminate|].
  destruct r1 as [|p r2]; [discriminate|].
  destruct (Ascii.eqb p ".") eqn:P;
    [apply Ascii.eqb_eq in P; subst p|].
  - pose proof (span_isdigit r2) as D2.
    destruct (span isdigit r2) as [d2 r3]. cbn [fst] in D2.
    destruct d2 as [|c2 d2]; [discriminate|].
    intros [= <-]. now exists c1, c2, d1, d2.
  - intros H. exfalso. revert H P.
    destruct p as [[] [] [] [] [] [] [] []]; try discriminate; intros _ P; discriminate P.
Qed.

Lemma first_occurrence_shape (marker raw g : string) :
  first_occurrence marker raw = Some g ->
  exists (c1 c2 : ascii) (d1 d2 : string),
    g = String c1 d1 ++ "." ++ String c2 d2
    /\ all_chars isdigit (String c1 d1) = true
    /\ all_chars isdigit (String c2 d2) = true.
Proof.
  induction raw as [|c raw IH].
  - simpl. destruct (startswith marker EmptyString); [|discriminate].
    destruct (decimal_after _) as [g'|] eqn:E; [|discriminate].
    intros [= <-]. now apply (decimal_after_shape _ _ E).
  - rewrite first_occurrence_cons.
    destruct (if startswith marker (String c raw) then _ else None) as [g'|] eqn:E.
    + intros [= <-]. destruct (startswith marker (String c raw)); [|discriminate].
      now apply (decimal_after_shape _ _ E).
    + exact IH.
Qed.

Ltac char_cases c H :=
  destruct c as [[] [] [] [] [] [] [] []]; cbv in H; try discriminate H.

Lemma plain_not_space (c : ascii) : plain c = true -> Py_ISSPACE c = false.
Proof. intros H. char_cases c H; reflexivity. Qed.

Lemma plain_not_underscore (c : ascii) : plain c = true -> Ascii.eqb c "_" = false.
Proof. intros H. char_cases c H; reflexivity. Qed.

Lemma isdigit_plain (c : ascii) : isdigit c = true -> plain c = true.
Proof. unfold plain. now intros ->. Qed.

Lemma all_chars_impl (p q : ascii -> bool) (s : string) :
  (forall c, p c = true -> q c = true) -> all_chars p s = true -> all_chars q s = true.
Proof.
  intros I. induction s as [|c s IH]; [reflexivity|].
  simpl. intros H. apply andb_true_iff in H. destruct H as [H1 H2].
  now rewrite (I c H1), IH.
Qed.

Lemma all_chars_app (p : ascii -> bool) (a b : string) :
  all_chars p (a ++ b) = all_chars p a && all_chars p b.
Proof.
  induction a as [|c a IH]; [reflexivity|].
  simpl. now rewrite IH, andb_assoc.
Qed.

Lemma lstrip_plain (s : string) : all_chars plain s = true -> lstrip s = s.
Proof.
  destruct s as [|c s]; [reflexivity|].
  simpl. intros H. apply andb_true_iff in H. destruct H as [H _].
  now rewrite (plain_not_space c H).
Qed.

Lemma rstrip_plain (s : string) : all_chars plain s = true -> rstrip s = s.
Proof.
  induction s as [|c s IH]; [reflexivity|].
  simpl. intros H. apply andb_true_iff in H. destruct H as [H1 H2].
  rewrite (IH H2). destruct s; [|reflexivity].
  now rewrite (plain_not_space c H1).
Qed.

Lemma strip_underscores_plain (s : string) :
  forall prev : option ascii,
    all_chars plain s = true ->
    match prev with
    | Some p => plain p = true
    | None => True
    end ->
    strip_underscores prev s = Some s.
Proof.
  induction s as [|c s IH]; intros prev H P.
  - destruct prev as [p|]; [|reflexivity]. char_cases p P; reflexivity.
  - simpl in H. apply andb_true_iff in H. destruct H as [H1 H2].
    cbn [strip_underscores]. rewrite (plain_not_underscore c H1).
    pose proof (IH (Some c) H2 H1) as E.
    destruct prev as [p|]; [|now rewrite E].
    char_cases p P; now rewrite E.
Qed.

Lemma read_sign_digit (c : ascii) (s : string) :
  isdigit c = true -> read_sign (String c s) = (false, String c s).
Proof. intros H. char_cases c H; reflexivity. Qed.

Lemma parse_inf_or_nan_digit (neg : bool) (c : ascii) (s : string) :
  isdigit c = true -> parse_inf_or_nan neg (String c s) = None.
Proof. intros H. char_cases c H; reflexivity. Qed.

Lemma read_digits_run (d : string) :
  forall (acc : N) (r : string),
    all_chars isdigit d = true -> leading_digit r = false ->
    read_digits acc (d ++ r) = (digits_value acc d, String.length d, r).
Proof.
  induction d as [|c d IH]; intros acc r H L.
  - destruct r as [|x r]; [reflexivity|]. simpl in *. now rewrite L.
  - simpl in H. apply andb_true_iff in H. destruct H as [H1 H2].
    simpl. rewrite H1. now rewrite (IH _ r H2 L).
Qed.

(** [float()] on digits, a point, digits: never a [ValueError]; the
    value is the correctly rounded one of the decimal. *)
Lemma float_of_decimal (c1 c2 : ascii) (d1 d2 : string) :
  all_chars isdigit (String c1 d1) = true ->
  all_chars isdigit (String c2 d2) = true ->
  float_of_string (String c1 d1 ++ "." ++ String c2 d2)
  = Some (decimal_to_float false
            (digits_value (digits_value 0 (String c1 d1)) (String c2 d2))
            (0 - Z.of_nat (String.length (String c2 d2)))).
Proof.
  intros D1 D2.
  set (a := String c1 d1) in *. set (b := String c2 d2) in *.
  assert (P : all_chars plain (a ++ "." ++ b) = true).
  { rewrite all_chars_app.
    rewrite (all_chars_impl isdigit plain a isdigit_plain D1).
    change ("." ++ b) with (String "." b). cbn [all_chars andb].
    change (plain ".") with true. cbn [andb].
    apply (all_chars_impl isdigit plain b isdigit_plain D2). }
  unfold float_of_string, strip.
  rewrite (lstrip_plain _ P), (rstrip_plain _ P).
  rewrite (strip_underscores_plain _ None P I).
  assert (C1 : isdigit c1 = true).
  { subst a. simpl in D1. apply andb_true_iff in D1. tauto. }
  assert (Ea : (a ++ "." ++ b) = String c1 (d1 ++ "." ++ b)) by reflexivity.
  rewrite Ea at 1. rewrite (read_sign_digit c1 _ C1).
  rewrite (parse_inf_or_nan_digit false c1 _ C1). rewrite <- Ea.
  unfold parse_decimal.
  rewrite (read_digits_run a 0%N ("." ++ b) D1 eq_refl).
  change ("." ++ b) with (String "." b). cbv iota beta.
  rewrite <- (append_empty_r b) at 1.
  rewrite (read_digits_run b _ EmptyString D2 eq_refl).
  subst a b. cbn [String.length Nat.add]. reflexivity.
Qed.

(** X16.  In the pattern fallback [float(match.group(1))] never raises:
    whatever the text, the group of a match of either pattern is
    digits, a point, digits, and [float] returns the correctly rounded
    value of that decimal.  The [except ValueError] of lines 161-162 is
    never entered; a match is dropped only for being implausible. *)
Theorem fallback_group_always_parses (p : pattern) (raw g : string) :
  In p patterns ->
  re_search p raw = Some g ->
  exists (whole fraction : string),
    g = whole ++ "." ++ fraction
    /\ all_chars isdigit whole = true /\ all_chars isdigit fraction = true
    /\ float_of_string g
       = Some (decimal_to_float false
                 (digits_value (digits_value 0 whole) fraction)
                 (0 - Z.of_nat (String.length fraction)))
    /\ pattern_value p raw
       = (if plausible (decimal_to_float false
                          (digits_value (digits_value 0 whole) fraction)
                          (0 - Z.of_nat (String.length fraction)))
          then float_of_string g else None).
Proof.
  intros I S.
  assert (F : exists marker, first_occurrence marker raw = Some g).
  { destruct I as [<-|[<-|[]]].
    - exists "CAD". now rewrite <- pattern_CAD_first_occurrence.
    - exists "Canadian Dollar". now rewrite <- pattern_Canadian_Dollar_first_occurrence. }
  destruct F as (marker & F).
  destruct (first_occurrence_shape _ _ _ F) as (c1 & c2 & d1 & d2 & -> & D1 & D2).
  exists (String c1 d1), (String c2 d2).
  pose proof (float_of_decimal c1 c2 d1 d2 D1 D2) as E.
  split; [reflexivity|]. split; [exact D1|]. split; [exact D2|]. split; [exact E|].
  unfold pattern_value. rewrite S, E. reflexivity.
Qed.

Lemma fallback_group_always_parses_witness :
  exists (whole fraction : string),
    "150.0" = whole ++ "." ++ fraction
    /\ all_chars isdigit whole = true /\ all_chars isdigit fraction = true
    /\ float_of_string "150.0"
       = Some (decimal_to_float false
                 (digits_value (digits_value 0 whole) fraction)
                 (0 - Z.of_nat (String.length fraction)))
    /\ pattern_value pattern_CAD "CAD 150.0 yesterday, CAD 1.29 today"
       = (if plausible (decimal_to_float false
                          (digits_value (digits_value 0 whole) fraction)
                          (0 - Z.of_nat (String.length fraction)))
          then float_of_string "150.0" else None).
Proof.
  apply (fallback_group_always_parses pattern_CAD "CAD 150.0 yesterday, CAD 1.29 today").
  - left. reflexivity.
  - vm_compute. reflexivity.
Defined.

(* ================================================================== *)
(** * Further properties: dates written and read back                  *)
(* ================================================================== *)

Lemma all_from_spec (f : Z -> bool) (p : positive) :
  forall base : Z,
    all_from p f base = true ->
    forall n : Z, base <= n < base + Zpos p -> f n = true.
Proof.
  induction p as [p IH|p IH|]; intros base H n R; cbn [all_from] in H.
  - apply andb_true_iff in H. destruct H as [H H3].
    apply andb_true_iff in H. destruct H as [H1 H2].
    destruct (Z.eq_dec n base) as [->|N]; [exact H1|].
    destruct (Z_lt_le_dec n (base + 1 + Zpos p)).
    + apply (IH (base + 1) H2). lia.
    + apply (IH (base + 1 + Zpos p) H3). lia.
  - apply andb_true_iff in H. destruct H as [H1 H2].
    destruct (Z_lt_le_dec n (base + Zpos p)).
    + apply (IH base H1). lia.
    + apply (IH (base + Zpos p) H2). lia.
  - replace n with base by lia. exact H.
Qed.

(** The calendar repeats every 400 years, which are [DI400Y] days. *)
Lemma ord2ymd_shift (n k : Z) :
  ord2ymd (n + k * DI400Y) = let '(y, m, d) := ord2ymd n in (y + 400 * k, m, d).
Proof.
  unfold ord2ymd. cbv zeta.
  replace (n + k * DI400Y - 1) with (n - 1 + k * DI400Y) by ring.
  rewrite Z.div_add, Z.mod_add by discriminate.
  set (q := (n - 1) / DI400Y). set (r := (n - 1) mod DI400Y).
  set (n100 := r / DI100Y). set (r100 := r mod DI100Y).
  set (n4 := r100 / DI4Y). set (r4 := r100 mod DI4Y).
  set (n1 := r4 / 365). set (r1 := r4 mod 365).
  replace ((q + k) * 400 + 1 + n100 * 100 + n4 * 4 + n1)
    with (q * 400 + 1 + n100 * 100 + n4 * 4 + n1 + 400 * k) by ring.
  set (year := q * 400 + 1 + n100 * 100 + n4 * 4 + n1).
  destruct ((n1 =? 4) || (n100 =? 4)).
  - now replace (year + 400 * k - 1) with (year - 1 + 400 * k) by ring.
  - match goal with
    | |- context [if ?c then _ else _] => destruct c
    end; reflexivity.
Qed.

Lemma is_leap_shift (y k : Z) : is_leap (y + 400 * k) = is_leap y.
Proof.
  unfold is_leap.
  replace ((y + 400 * k) mod 4) with (y mod 4)
    by (replace (400 * k) with (100 * k * 4) by ring; now rewrite Z.mod_add).
  replace ((y + 400 * k) mod 100) with (y mod 100)
    by (replace (400 * k) with (4 * k * 100) by ring; now rewrite Z.mod_add).
  replace ((y + 400 * k) mod 400) with (y mod 400)
    by (replace (400 * k) with (k * 400) by ring; now rewrite Z.mod_add).
  reflexivity.
Qed.

Lemma days_before_year_shift (y k : Z) :
  days_before_year (y + 400 * k) = days_before_year y + k * DI400Y.
Proof.
  unfold days_before_year, DI400Y. cbv zeta.
  replace (y + 400 * k - 1) with (y - 1 + 400 * k) by ring.
  replace ((y - 1 + 400 * k) / 4) with ((y - 1) / 4 + 100 * k)
    by (replace (400 * k) with (100 * k * 4) by ring; now rewrite Z.div_add).
  replace ((y - 1 + 400 * k) / 100) with ((y - 1) / 100 + 4 * k)
    by (replace (400 * k) with (4 * k * 100) by ring; now rewrite Z.div_add).
  replace ((y - 1 + 400 * k) / 400) with ((y - 1) / 400 + k)
    by (replace (400 * k) with (k * 400) by ring; now rewrite Z.div_add).
  ring.
Qed.

Lemma ymd2ord_shift (y m d k : Z) :
  ymd2ord (y + 400 * k) m d = ymd2ord y m d + k * DI400Y.
Proof.
  unfold ymd2ord, days_before_month.
  rewrite days_before_year_shift, is_leap_shift. ring.
Qed.

Lemma days_in_month_shift (y m k : Z) :
  days_in_month (y + 400 * k) m = days_in_month y m.
Proof. unfold days_in_month. now rewrite is_leap_shift. Qed.

Lemma first_cycle : all_from 146097 first_cycle_day 1 = true.
Proof. vm_compute. reflexivity. Qed.

(** [ord2ymd] is right on every day of the calendar: the fields are a
    date of the years 1 to 9999, and [ymd2ord] maps them back. *)
Lemma ord2ymd_spec (n : Z) :
  0 < n <= MAXORDINAL ->
  exists y m d : Z,
    ord2ymd n = (y, m, d)
    /\ 1 <= y <= 9999 /\ 1 <= m <= 12 /\ 1 <= d <= days_in_month y m
    /\ ymd2ord y m d = n.
Proof.
  intros [L U]. unfold MAXORDINAL in U.
  set (q := (n - 1) / DI400Y). set (r := (n - 1) mod DI400Y).
  assert (R : 0 <= r < DI400Y) by (apply Z.mod_pos_bound; reflexivity).
  assert (E : n = r + 1 + q * DI400Y).
  { pose proof (Z.div_mod (n - 1) DI400Y ltac:(discriminate)) as D. fold q r in D.
    lia. }
  assert (Q : 0 <= q <= 24).
  { unfold q, DI400Y. split.
    - apply Z.div_pos; lia.
    - assert ((n - 1) / 146097 < 25); [|lia].
      apply Z.div_lt_upper_bound; lia. }
  unfold DI400Y in R.
  pose proof (all_from_spec first_cycle_day 146097 1 first_cycle (r + 1)) as C.
  unfold first_cycle_day in C.
  pose proof (ord2ymd_shift (r + 1) q) as S. rewrite <- E in S.
  destruct (ord2ymd (r + 1)) as [[y m] d].
  assert (C' : (1 <=? y) && (y <=? 400) && (1 <=? m) && (m <=? 12) && (1 <=? d)
               && (d <=? days_in_month y m) && (ymd2ord y m d =? r + 1) = true)
    by (apply C; lia).
  clear C. repeat (apply andb_true_iff in C'; destruct C' as [C' ?]).
  exists (y + 400 * q), m, d. split; [exact S|].
  rewrite days_in_month_shift, ymd2ord_shift.
  assert (Y : ymd2ord y m d = r + 1) by lia.
  split; [|split; [lia|split; [lia|lia]]].
  split; [lia|].
  destruct (Z.eq_dec y 400) as [->|N]; [|lia].
  destruct (Z.eq_dec q 24) as [->|N]; [|lia].
  exfalso. unfold ymd2ord in Y.
  pose proof (days_before_month_nonneg 400 m ltac:(lia)) as B.
  change (days_before_year 400) with 145731 in Y. unfold DI400Y in E. lia.
Qed.

Lemma four_digit_years : all_from 9000 four_digit_year 1000 = true.
Proof. vm_compute. reflexivity. Qed.

Lemma short_years : all_from 999 short_year 1 = true.
Proof. vm_compute. reflexivity. Qed.

Lemma days_in_month_le_31 (y m : Z) : 1 <= m <= 12 -> days_in_month y m <= 31.
Proof.
  intros H.
  assert (C : m = 1 \/ m = 2 \/ m = 3 \/ m = 4 \/ m = 5 \/ m = 6 \/ m = 7 \/ m = 8
              \/ m = 9 \/ m = 10 \/ m = 11 \/ m = 12) by lia.
  unfold days_in_month.
  destruct (is_leap y);
    repeat (destruct C as [->|C]; [vm_compute; discriminate|]);
    subst; vm_compute; discriminate.
Qed.

(** The days of the years from 1000 on are the ordinals from
    [FIRST_FOUR_DIGIT_DAY] on. *)
Lemma year_1000_onwards (y m d : Z) :
  1 <= y -> 1 <= m <= 12 -> 1 <= d <= days_in_month y m ->
  (1000 <= y <-> FIRST_FOUR_DIGIT_DAY <= ymd2ord y m d).
Proof.
  intros Y M D. unfold ymd2ord, FIRST_FOUR_DIGIT_DAY.
  pose proof (days_before_month_nonneg y m M) as B0.
  pose proof (month_end_in_year y m M) as B1.
  split.
  - intros H.
    assert (364877 <= days_before_year y); [|lia].
    unfold days_before_year. cbv zeta. Z.div_mod_to_equations. lia.
  - intros H. destruct (Z_lt_le_dec y 1000) as [L|L]; [exfalso|exact L].
    assert (B : days_before_year y + 365 + (if is_leap y then 1 else 0) <= 364877).
    { destruct (Z.eq_dec y 999) as [->|N].
      - vm_compute. discriminate.
      - assert (E : (if is_leap y then 1 else 0) <= 1) by (destruct (is_leap y); lia).
        unfold days_before_year. cbv zeta. Z.div_mod_to_equations. lia. }
    lia.
Qed.

(** The format read on what [strftime] writes after a four-digit
    year: a month and a day of two digits each. *)
Lemma match_Ymd_written (a b c e : ascii) (m d : Z) :
  isdigit a = true -> isdigit b = true -> isdigit c = true -> isdigit e = true ->
  1 <= m <= 12 -> 1 <= d <= 31 ->
  match_Ymd (String a (String b (String c (String e
               ("-" ++ zfill 2 (str_of_Z m) ++ "-" ++ zfill 2 (str_of_Z d))))))
  = Some (((digit_Z a * 10 + digit_Z b) * 10 + digit_Z c) * 10 + digit_Z e,
          m, d, EmptyString).
Proof.
  intros Da Db Dc De M D.
  unfold match_Ymd, directive_Y. rewrite Da, Db, Dc, De. cbn [andb].
  set (year := ((digit_Z a * 10 + digit_Z b) * 10 + digit_Z c) * 10 + digit_Z e).
  clearbody year.
  assert (Cm : m = 1 \/ m = 2 \/ m = 3 \/ m = 4 \/ m = 5 \/ m = 6 \/ m = 7 \/ m = 8
               \/ m = 9 \/ m = 10 \/ m = 11 \/ m = 12) by lia.
  assert (Cd : d = 1 \/ d = 2 \/ d = 3 \/ d = 4 \/ d = 5 \/ d = 6 \/ d = 7 \/ d = 8
               \/ d = 9 \/ d = 10 \/ d = 11 \/ d = 12 \/ d = 13 \/ d = 14 \/ d = 15
               \/ d = 16 \/ d = 17 \/ d = 18 \/ d = 19 \/ d = 20 \/ d = 21 \/ d = 22
               \/ d = 23 \/ d = 24 \/ d = 25 \/ d = 26 \/ d = 27 \/ d = 28 \/ d = 29
               \/ d = 30 \/ d = 31) by lia.
  clear M D.
  repeat (destruct Cm as [->|Cm]);
    [..|subst m];
    repeat (destruct Cd as [->|Cd]; [reflexivity|]); subst d; reflexivity.
Qed.

(** A year of fewer than four digits does not match [%Y], whatever
    follows the dash. *)
Lemma match_Ymd_short (y : Z) (rest : string) :
  short_year y = true -> match_Ymd (str_of_Z y ++ "-" ++ rest) = None.
Proof.
  unfold short_year.
  destruct (str_of_Z y) as [|a [|b [|c [|x r]]]]; try discriminate; intros _;
    cbn [append]; unfold match_Ymd, directive_Y;
    change (isdigit "-") with false.
  - destruct rest as [|p [|q rest]]; try reflexivity.
    now rewrite andb_false_r.
  - destruct rest as [|p rest]; try reflexivity.
    now rewrite andb_false_r.
  - now rewrite andb_false_r.
Qed.

(** X17.  A day written with [strftime('%Y-%m-%d')] and read with
    [strptime(..., '%Y-%m-%d')] comes back for every day from
    1000-01-01 to 9999-12-31.  For an earlier day the year is written
    with fewer than four digits and [strptime] refuses the text with a
    [ValueError]: the texts [get_date_range] makes for the years before
    1000 do not pass the routes' validation. *)
Theorem strptime_strftime (n : datetime) :
  (FIRST_FOUR_DIGIT_DAY <= n <= MAXORDINAL -> strptime (strftime n) = Return n)
  /\ (0 < n < FIRST_FOUR_DIGIT_DAY ->
      strptime (strftime n) = Raise (Exn ValueError "time data does not match format")).
Proof.
  split; intros H.
  - destruct (ord2ymd_spec n) as (y & m & d & O & Y & M & D & E);
      [unfold FIRST_FOUR_DIGIT_DAY in H; lia|].
    assert (Y4 : 1000 <= y).
    { apply (year_1000_onwards y m d); lia. }
    unfold strftime. rewrite O.
    pose proof (all_from_spec four_digit_year 9000 1000 four_digit_years y ltac:(lia)) as F.
    unfold four_digit_year in F.
    destruct (str_of_Z y) as [|a [|b [|c [|e [|x rest]]]]]; try discriminate F.
    do 4 (apply andb_true_iff in F; destruct F as [F ?]).
    pose proof (days_in_month_le_31 y m M) as B.
    pose proof (match_Ymd_written a b c e m d) as W.
    cbn [append] in W |- *.
    unfold strptime. rewrite W by (try assumption; lia).
    replace (((digit_Z a * 10 + digit_Z b) * 10 + digit_Z c) * 10 + digit_Z e)
      with y by lia.
    unfold MINYEAR.
    destruct (y <? 1) eqn:Y1; [lia|].
    destruct (days_in_month y m <? d) eqn:D1; [lia|].
    now rewrite E.
  - destruct (ord2ymd_spec n) as (y & m & d & O & Y & M & D & E);
      [unfold FIRST_FOUR_DIGIT_DAY, MAXORDINAL in *; lia|].
    assert (Y3 : y < 1000).
    { destruct (Z_lt_le_dec y 1000) as [L|L]; [exact L|exfalso].
      apply (year_1000_onwards y m d) in L; try lia. }
    unfold strftime. rewrite O.
    pose proof (all_from_spec short_year 999 1 short_years y ltac:(lia)) as F.
    unfold strptime. now rewrite (match_Ymd_short y _ F).
Qed.

Lemma strptime_strftime_witness :
  (strptime (strftime 738945) = Return 738945 /\ strftime 738945 = "2024-02-29")
  /\ (strptime (strftime 364877)
      = Raise (Exn ValueError "time data does not match format")
      /\ strftime 364877 = "999-12-31").
Proof.
  split; split.
  - apply (proj1 (strptime_strftime 738945)). vm_compute. split; discriminate.
  - vm_compute. reflexivity.
  - apply (proj2 (strptime_strftime 364877)). vm_compute. split; reflexivity.
  - vm_compute. reflexivity.
Defined.
